(** * SearchCache: the in-memory cache of search results

    A verification development for [file_knowledge_mcp/search/cache.py].

    The file embeds, in this order,
    - [hashlib.sha256] (FIPS 180-4) on byte strings, as used by [_make_key];
    - the Python built-ins the cache relies on: [repr] of the keyword
      values, [sorted] on the keyword items, and the insertion-ordered
      [dict] with [get], item assignment, [del] and [min(..., key=...)];
    - [CacheEntry] and [SearchCache] with [_make_key], [get], [set],
      [_evict_oldest], [clear] and [stats];
    and then states and proves the properties of the cache. *)

From Stdlib Require Import ZArith List String Ascii Bool Lia.
From Stdlib Require Import Permutation Sorted DecimalString OrderedTypeEx.
From Stdlib Require Import DecimalPos DecimalZ.
Import ListNotations.

Local Open Scope string_scope.
Local Open Scope list_scope.
Local Open Scope Z_scope.

(* ------------------------------------------------------------------ *)
(** ** hashlib.sha256 *)

Module Sha256.

Definition mask32 : Z := 4294967295.

Definition wrap32 (x : Z) : Z := Z.land x mask32.

Definition add32 (x y : Z) : Z := wrap32 (x + y).

Definition rotr (x n : Z) : Z :=
  Z.lor (Z.shiftr x n) (wrap32 (Z.shiftl x (32 - n))).

Definition not32 (x : Z) : Z := Z.lxor x mask32.

Definition choose (x y z : Z) : Z :=
  Z.lxor (Z.land x y) (Z.land (not32 x) z).

Definition majority (x y z : Z) : Z :=
  Z.lxor (Z.lxor (Z.land x y) (Z.land x z)) (Z.land y z).

Definition big_s0 (x : Z) : Z :=
  Z.lxor (Z.lxor (rotr x 2) (rotr x 13)) (rotr x 22).

Definition big_s1 (x : Z) : Z :=
  Z.lxor (Z.lxor (rotr x 6) (rotr x 11)) (rotr x 25).

Definition small_s0 (x : Z) : Z :=
  Z.lxor (Z.lxor (rotr x 7) (rotr x 18)) (Z.shiftr x 3).

Definition small_s1 (x : Z) : Z :=
  Z.lxor (Z.lxor (rotr x 17) (rotr x 19)) (Z.shiftr x 10).

(** Value of one lower-case hexadecimal digit. *)
Definition hex_value (a : ascii) : Z :=
  let n := Z.of_N (N_of_ascii a) in
  if n <? 58 then n - 48 else n - 87.

(** The 32-bit words written in a string of hexadecimal digits, eight
    digits a word. *)
Fixpoint hex_words (s : string) (acc : Z) (seen : nat) : list Z :=
  match s with
  | EmptyString => []
  | String a rest =>
      let acc' := acc * 16 + hex_value a in
      match seen with
      | 7%nat => acc' :: hex_words rest 0 0
      | _ => hex_words rest acc' (S seen)
      end
  end.

(** Round constants: the fractional parts of the cube roots of the
    first sixty-four primes. *)
Definition round_constants : list Z :=
  Eval cbv in
    hex_words
      (String.concat EmptyString
      ["428a2f9871374491b5c0fbcfe9b5dba53956c25b59f111f1923f82a4ab1c5ed5";
       "d807aa9812835b01243185be550c7dc372be5d7480deb1fe9bdc06a7c19bf174";
       "e49b69c1efbe47860fc19dc6240ca1cc2de92c6f4a7484aa5cb0a9dc76f988da";
       "983e5152a831c66db00327c8bf597fc7c6e00bf3d5a7914706ca635114292967";
       "27b70a852e1b21384d2c6dfc53380d13650a7354766a0abb81c2c92e92722c85";
       "a2bfe8a1a81a664bc24b8b70c76c51a3d192e819d6990624f40e3585106aa070";
       "19a4c1161e376c082748774c34b0bcb5391c0cb34ed8aa4a5b9cca4f682e6ff3";
       "748f82ee78a5636f84c878148cc7020890befffaa4506cebbef9a3f7c67178f2"])
      0 0.

(** Initial hash value: the fractional parts of the square roots of the
    first eight primes. *)
Definition initial_hash : list Z :=
  Eval cbv in
    hex_words
      "6a09e667bb67ae853c6ef372a54ff53a510e527f9b05688c1f83d9ab5be0cd19"
      0 0.

(** Padding: a one bit, zero bits up to 56 modulo 64 bytes, then the
    length of the message in bits as a 64-bit big-endian number. *)
Fixpoint be_bytes (n : nat) (x : Z) : list Z :=
  match n with
  | O => []
  | S m => Z.land (Z.shiftr x (8 * Z.of_nat m)) 255 :: be_bytes m x
  end.

Definition pad (msg : list Z) : list Z :=
  let len := Z.of_nat (List.length msg) in
  msg ++ [128] ++ repeat 0 (Z.to_nat ((55 - len) mod 64))
      ++ be_bytes 8 (8 * len).

Fixpoint be_words (bs : list Z) : list Z :=
  match bs with
  | a :: b :: c :: d :: rest =>
      Z.lor (Z.lor (Z.shiftl a 24) (Z.shiftl b 16))
            (Z.lor (Z.shiftl c 8) d) :: be_words rest
  | _ => []
  end.

(** Message schedule.  [extend] keeps the words computed so far with the
    latest one first. *)
Fixpoint extend (n : nat) (w : list Z) : list Z :=
  match n with
  | O => w
  | S m =>
      let next :=
        add32 (add32 (small_s1 (nth 1 w 0)) (nth 6 w 0))
              (add32 (small_s0 (nth 14 w 0)) (nth 15 w 0)) in
      extend m (next :: w)
  end.

Definition schedule (block : list Z) : list Z :=
  rev (extend 48 (rev block)).

Record regs := Regs { ra : Z; rb : Z; rc : Z; rd : Z;
                      re : Z; rf : Z; rg : Z; rh : Z }.

Definition round (s : regs) (kw : Z * Z) : regs :=
  let t1 :=
    add32 (add32 (add32 (rh s) (big_s1 (re s)))
                 (add32 (choose (re s) (rf s) (rg s)) (fst kw))) (snd kw) in
  let t2 := add32 (big_s0 (ra s)) (majority (ra s) (rb s) (rc s)) in
  Regs (add32 t1 t2) (ra s) (rb s) (rc s)
       (add32 (rd s) t1) (re s) (rf s) (rg s).

Definition regs_of (h : list Z) : regs :=
  Regs (nth 0 h 0) (nth 1 h 0) (nth 2 h 0) (nth 3 h 0)
       (nth 4 h 0) (nth 5 h 0) (nth 6 h 0) (nth 7 h 0).

Definition list_of (s : regs) : list Z :=
  [ra s; rb s; rc s; rd s; re s; rf s; rg s; rh s].

Definition compress (h : list Z) (block : list Z) : list Z :=
  let s := fold_left round (combine round_constants (schedule block))
                     (regs_of h) in
  map (fun p => add32 (fst p) (snd p)) (combine h (list_of s)).

Fixpoint blocks (fuel : nat) (ws : list Z) : list (list Z) :=
  match fuel, ws with
  | S f, _ :: _ => firstn 16 ws :: blocks f (skipn 16 ws)
  | _, _ => []
  end.

Definition digest_words (msg : list Z) : list Z :=
  let ws := be_words (pad msg) in
  fold_left compress (blocks (List.length ws) ws) initial_hash.

Definition hex_digit (n : Z) : ascii :=
  ascii_of_N (Z.to_N (if n <? 10 then 48 + n else 87 + n)).

Fixpoint hex_of (digits : nat) (x : Z) : string :=
  match digits with
  | O => EmptyString
  | S m =>
      String (hex_digit (Z.land (Z.shiftr x (4 * Z.of_nat m)) 15))
             (hex_of m x)
  end.

(** [hashlib.sha256(data).hexdigest()] *)
Definition hexdigest (data : list Z) : string :=
  fold_right (fun w s => String.append (hex_of 8 w) s) EmptyString (digest_words data).

End Sha256.

(** [str.encode()]: a Python [str] is modelled by the string of the bytes
    of its UTF-8 encoding, so encoding lists those bytes. *)
Definition encode (s : string) : list Z :=
  map (fun a => Z.of_N (N_of_ascii a)) (list_ascii_of_string s).


(* ------------------------------------------------------------------ *)
(** ** Python built-ins used by the cache *)

(** The values the callers pass as keyword arguments: flags, counts and
    text.  [Any] in the source; these are the types whose [repr] is fixed
    by the language. *)
Inductive py_value : Type :=
| PyNone
| PyBool (b : bool)
| PyInt (n : Z)
| PyStr (s : string).

Definition char (n : N) : ascii := ascii_of_N n.

Definition quote1 : ascii := char 39.
Definition quote2 : ascii := char 34.
Definition backslash : ascii := char 92.

Fixpoint contains (a : ascii) (s : string) : bool :=
  match s with
  | EmptyString => false
  | String b rest => Ascii.eqb a b || contains a rest
  end.

(** One character of [repr(str)], for the quote in use.  Bytes from 0x80
    on belong to the encoding of a non-ASCII code point and are copied, as
    Python copies every printable code point. *)
Definition repr_char (quote : ascii) (a : ascii) : string :=
  let n := Z.of_N (N_of_ascii a) in
  if Ascii.eqb a quote || Ascii.eqb a backslash then
    String backslash (String a EmptyString)
  else if n =? 9 then String backslash "t"
  else if n =? 10 then String backslash "n"
  else if n =? 13 then String backslash "r"
  else if (n <? 32) || (n =? 127) then
    String backslash (String.append "x" (Sha256.hex_of 2 n))
  else String a EmptyString.

Fixpoint repr_chars (quote : ascii) (s : string) : string :=
  match s with
  | EmptyString => EmptyString
  | String a rest => String.append (repr_char quote a) (repr_chars quote rest)
  end.

(** [repr(s)] for a [str]: single quotes, unless the text holds a single
    quote and no double quote. *)
Definition repr_str (s : string) : string :=
  let quote :=
    if contains quote1 s && negb (contains quote2 s) then quote2
    else quote1 in
  String quote (String.append (repr_chars quote s) (String quote EmptyString)).

Definition repr (v : py_value) : string :=
  match v with
  | PyNone => "None"
  | PyBool true => "True"
  | PyBool false => "False"
  | PyInt n => NilZero.string_of_int (Z.to_int n)
  | PyStr s => repr_str s
  end.

(** An item of [kwargs.items()]. *)
Definition item : Type := string * py_value.

Definition repr_item (it : item) : string :=
  String.concat EmptyString ["("; repr_str (fst it); ", "; repr (snd it); ")"].

(** [repr] of a list of items, which is also what an f-string prints. *)
Definition repr_items (l : list item) : string :=
  String.concat EmptyString ["["; String.concat ", " (map repr_item l); "]"].

(** [a < b] on two items of one [dict]: tuples compare on their first
    differing component, and the names of two items of a dict differ, so
    the names decide; [str] compares code point by code point, which is
    the order of the UTF-8 bytes. *)
Definition item_ltb (a b : item) : bool := String.ltb (fst a) (fst b).

Definition name_lt (a b : item) : Prop := item_ltb a b = true.

Fixpoint insert_item (x : item) (l : list item) : list item :=
  match l with
  | [] => [x]
  | y :: rest =>
      if item_ltb y x then y :: insert_item x rest else x :: y :: rest
  end.

(** [sorted(items)]: a stable sort by [<]. *)
Fixpoint sorted (l : list item) : list item :=
  match l with
  | [] => []
  | x :: rest => insert_item x (sorted rest)
  end.

(** [min(iterable, key=f)] on a non-empty iterable: the first element, in
    iteration order, whose key is smallest. *)
Fixpoint min_from {A : Type} (key : A -> Z) (best : A) (l : list A) : A :=
  match l with
  | [] => best
  | x :: rest =>
      if key x <? key best then min_from key x rest
      else min_from key best rest
  end.

(** *** The insertion-ordered [dict] with [str] keys *)

Section Dict.

Context {V : Type}.

Definition dict : Type := list (string * V).

Definition keys (d : dict) : list string := map fst d.

Definition values (d : dict) : list V := map snd d.

Definition len (d : dict) : Z := Z.of_nat (List.length d).

(** [d.get(k)] *)
Fixpoint dict_get (k : string) (d : dict) : option V :=
  match d with
  | [] => None
  | (k', v) :: rest => if String.eqb k k' then Some v else dict_get k rest
  end.

(** [d[k] = v]: a key already in the dict keeps its place, a new key goes
    last. *)
Fixpoint dict_setitem (k : string) (v : V) (d : dict) : dict :=
  match d with
  | [] => [(k, v)]
  | (k', v') :: rest =>
      if String.eqb k k' then (k, v) :: rest
      else (k', v') :: dict_setitem k v rest
  end.

(** [del d[k]].  Python raises [KeyError] for a missing key; the cache
    only deletes a key it has just found in the dict. *)
Fixpoint dict_delitem (k : string) (d : dict) : dict :=
  match d with
  | [] => []
  | (k', v') :: rest =>
      if String.eqb k k' then rest else (k', v') :: dict_delitem k rest
  end.

(** The keys of a dict are pairwise distinct. *)
Fixpoint distinct (ks : list string) : bool :=
  match ks with
  | [] => true
  | k :: rest =>
      negb (existsb (String.eqb k) rest) && distinct rest
  end.

Definition wf_dict (d : dict) : Prop := distinct (keys d) = true.

End Dict.

Arguments dict V : clear implicits.

(* ------------------------------------------------------------------ *)
(** ** CacheEntry and SearchCache *)

(** Time stamps ([time.time()]) and durations.  The source holds them in
    floats; the model takes them as exact numbers, whole ticks of the
    clock, on which [-], [<] and [>] are the mathematical ones. *)
Definition time : Type := Z.

Section Cache.

(** The cached payload, [Any] in the source. *)
Context {Result : Type}.

Record CacheEntry : Type := mkCacheEntry {
  result : Result;
  created_at : time;
  hits : Z
}.

Record SearchCache : Type := mkSearchCache {
  max_size : Z;
  ttl_seconds : Z;
  _cache : dict CacheEntry
}.

Definition with_cache (self : SearchCache) (d : dict CacheEntry)
  : SearchCache :=
  {| max_size := max_size self;
     ttl_seconds := ttl_seconds self;
     _cache := d |}.

(** [SearchCache(max_size, ttl_seconds)] *)
Definition __init__ (max_size ttl_seconds : Z) : SearchCache :=
  {| max_size := max_size; ttl_seconds := ttl_seconds; _cache := [] |}.

Definition key_data (query path : string) (kwargs : list item) : string :=
  String.concat EmptyString
    [query; ":"; path; ":"; repr_items (sorted kwargs)].

Definition _make_key (query path : string) (kwargs : list item) : string :=
  substring 0 16 (Sha256.hexdigest (encode (key_data query path kwargs))).

(** [get] at time [now] (the one reading of the clock the call makes):
    the value returned, [None] for a miss, and the cache afterwards.
    Keyword arguments are the items of [kwargs] in the order they were
    passed, with pairwise distinct names. *)
Definition get (self : SearchCache) (now : time)
           (query path : string) (kwargs : list item)
  : option Result * SearchCache :=
  let key := _make_key query path kwargs in
  match dict_get key (_cache self) with
  | None => (None, self)
  | Some entry =>
      if now - created_at entry >? ttl_seconds self then
        (None, with_cache self (dict_delitem key (_cache self)))
      else
        let entry' := {| result := result entry;
                         created_at := created_at entry;
                         hits := hits entry + 1 |} in
        (Some (result entry),
         with_cache self (dict_setitem key entry' (_cache self)))
  end.

Definition created_at_of (d : dict CacheEntry) (k : string) : time :=
  match dict_get k d with
  | Some e => created_at e
  | None => 0
  end.

Definition _evict_oldest (self : SearchCache) : SearchCache :=
  match keys (_cache self) with
  | [] => self
  | k :: ks =>
      let oldest_key := min_from (created_at_of (_cache self)) k ks in
      with_cache self (dict_delitem oldest_key (_cache self))
  end.

(** [set] at time [now]; the call returns nothing, the model returns the
    cache afterwards. *)
Definition set (self : SearchCache) (now : time)
           (query path : string) (res : Result) (kwargs : list item)
  : SearchCache :=
  let key := _make_key query path kwargs in
  let self1 :=
    if len (_cache self) >=? max_size self then _evict_oldest self
    else self in
  with_cache self1
    (dict_setitem key {| result := res; created_at := now; hits := 0 |}
                  (_cache self1)).

Definition clear (self : SearchCache) : SearchCache := with_cache self [].

Record Stats : Type := mkStats {
  entries : Z;
  stats_max_size : Z;
  total_hits : Z
}.

Definition stats (self : SearchCache) : Stats :=
  let total := fold_left Z.add (map hits (values (_cache self))) 0 in
  {| entries := len (_cache self);
     stats_max_size := max_size self;
     total_hits := total |}.

(** A caller's view: the operations of the cache, each with the time at
    which it runs, and a sequence of them run from a given cache. *)
Inductive op : Type :=
| OpGet (now : time) (query path : string) (kwargs : list item)
| OpSet (now : time) (query path : string) (res : Result)
        (kwargs : list item)
| OpClear.

Definition step (self : SearchCache) (o : op) : SearchCache :=
  match o with
  | OpGet now query path kwargs => snd (get self now query path kwargs)
  | OpSet now query path res kwargs => set self now query path res kwargs
  | OpClear => clear self
  end.

Definition run (self : SearchCache) (ops : list op) : SearchCache :=
  fold_left step ops self.

(** The same dict with the hit counters rewritten by [f], key by key;
    used to state that a computation does not look at [hits]. *)
Definition rewrite_hits (f : string -> Z -> Z) (d : dict CacheEntry)
  : dict CacheEntry :=
  map (fun kv => (fst kv, {| result := result (snd kv);
                             created_at := created_at (snd kv);
                             hits := f (fst kv) (hits (snd kv)) |})) d.

(** The sum of the hit counters of the stored entries. *)
Fixpoint sum_hits (d : dict CacheEntry) : Z :=
  match d with
  | [] => 0
  | (_, e) :: rest => hits e + sum_hits rest
  end.

Definition nonneg_hits (kv : string * CacheEntry) : Prop :=
  0 <= hits (snd kv).

(** The number of [get] calls in a sequence of operations. *)
Fixpoint count_gets (ops : list op) : Z :=
  match ops with
  | [] => 0
  | OpGet _ _ _ _ :: rest => 1 + count_gets rest
  | _ :: rest => count_gets rest
  end.

(** An entry of the dict was put there by a [set]. *)
Definition stored_by (ops : list op)
           (kv : string * CacheEntry) : Prop :=
  exists now q p res kw,
    In (OpSet now q p res kw) ops /\
    fst kv = _make_key q p kw /\
    result (snd kv) = res /\
    created_at (snd kv) = now /\
    0 <= hits (snd kv).

End Cache.

Arguments CacheEntry Result : clear implicits.
Arguments SearchCache Result : clear implicits.
Arguments op Result : clear implicits.





(** A fingerprint is written in lower-case hexadecimal digits. *)
Definition is_lower_hex (a : ascii) : bool :=
  let n := Z.of_N (N_of_ascii a) in
  ((48 <=? n) && (n <=? 57)) || ((97 <=? n) && (n <=? 102)).

Definition all_lower_hex (s : string) : Prop :=
  forallb is_lower_hex (list_ascii_of_string s) = true.

(* ------------------------------------------------------------------ *)
(** ** Resources: the routing of [read_resource]

    [contextfs/resources.py].  The three functions that build an answer,
    [_get_root_index], [_get_collection_index] and
    [_get_document_info_resource], read the file system through the
    server's configuration; [read_resource] only chooses among them, so
    they are taken as given: each returns a text or raises. *)

(** [s.startswith(prefix)] *)
Definition startswith (s prefix : string) : bool := String.prefix prefix s.

(** [s.endswith(suffix)] *)
Definition endswith (s suffix : string) : bool :=
  (String.length suffix <=? String.length s)%nat &&
  String.eqb
    (substring (String.length s - String.length suffix)
               (String.length suffix) s)
    suffix.

(** [s[n:]] for [n >= 0] *)
Fixpoint slice_from (n : nat) (s : string) : string :=
  match n, s with
  | O, _ => s
  | S m, String _ rest => slice_from m rest
  | S _, EmptyString => EmptyString
  end.

(** [s[:-n]] for [n > 0] *)
Definition slice_to_minus (n : nat) (s : string) : string :=
  substring 0 (String.length s - n) s.

Section Resources.

(** What a handler raises: [McpError] and the like. *)
Context {Exc : Type}.

Inductive raised : Type :=
| ValueError (message : string)
| HandlerError (e : Exc).

(** The outcome of a call: the text returned, or the exception raised. *)
Definition outcome : Type := (string + raised)%type.

(** The handlers, for the configuration the server was registered with. *)
Variable _get_root_index : outcome.
Variable _get_collection_index : string -> outcome.
Variable _get_document_info_resource : string -> outcome.

Definition scheme : string := "knowledge://".

(** [read_resource(uri)].  Whatever a handler raises is raised again as it
    is by both [except] clauses, so the outcome of the handler is the
    outcome of the call. *)
Definition read_resource (uri : string) : outcome :=
  if negb (startswith uri scheme) then
    inr (ValueError (String.append "Invalid URI scheme: " uri))
  else
    let path_and_type := slice_from (String.length scheme) uri in
    if String.eqb path_and_type "index" then _get_root_index
    else if endswith path_and_type "/index" then
      _get_collection_index (slice_to_minus 6 path_and_type)
    else if endswith path_and_type "/info" then
      _get_document_info_resource (slice_to_minus 5 path_and_type)
    else inr (ValueError (String.append "Unknown resource: " uri)).

End Resources.

Arguments raised Exc : clear implicits.
Arguments outcome Exc : clear implicits.

(* ------------------------------------------------------------------ *)
(** ** Sample runs

    Caches with text payloads, built by the operations themselves. *)

(** Two entries in a cache of capacity two, stored at times 1 and 2. *)
Definition full_cache : SearchCache string :=
  set (set (__init__ 2 300) 1 "q1" "/p" "r1" []) 2 "q2" "/p" "r2" [].

(** [full_cache] after two hits on its older entry. *)
Definition hit_cache : SearchCache string :=
  snd (get (snd (get full_cache 3 "q1" "/p" [])) 4 "q1" "/p" []).

(** A cache with room left, and a short session. *)
Definition roomy_cache : SearchCache string :=
  set (__init__ 3 300) 1 "q1" "/p" "r1" [].

Definition session : list (op string) :=
  [OpSet 1 "q1" "/p" "r1" []; OpGet 2 "q1" "/p" [];
   OpSet 3 "q2" "/p" "r2" []].

Definition kw_fuzzy : item := ("fuzzy", PyBool true).
Definition kw_max_results : item := ("max_results", PyInt 5).

(* ------------------------------------------------------------------ *)
(** ** Test vectors of the hash *)

Example sha256_empty :
  Sha256.hexdigest (encode EmptyString) =
  "e3b0c44298fc1c149afbf4c8996fb92427ae41e4649b934ca495991b7852b855".
Proof. vm_compute. reflexivity. Qed.

Example sha256_abc :
  Sha256.hexdigest (encode "abc") =
  "ba7816bf8f01cfea414140de5dae2223b00361a396177a9cb410ff61f20015ad".
Proof. vm_compute. reflexivity. Qed.

Example sha256_two_blocks :
  Sha256.hexdigest
    (encode "abcdbcdecdefdefgefghfghighijhijkijkljklmklmnlmnomnopnopq") =
  "248d6a61d20638b8e5c026930c3e6039a33ce45964ff2167f6ecedd419db06c1".
Proof. vm_compute. reflexivity. Qed.


(* ------------------------------------------------------------------ *)
(** ** Facts about the dict operations *)

Section DictFacts.

Context {V : Type}.
Implicit Types (d : dict V) (k : string) (v : V).

Lemma distinct_NoDup (ks : list string) :
  distinct ks = true <-> NoDup ks.
Proof.
  induction ks as [|k ks IH]; simpl.
  - split; [constructor | reflexivity].
  - rewrite andb_true_iff, negb_true_iff, IH. split.
    + intros [Hk Hks]. constructor; [|assumption].
      intros Hin. assert (existsb (String.eqb k) ks = true) as E.
      { apply existsb_exists. exists k. split; [assumption|].
        apply String.eqb_refl. }
      congruence.
    + intros Hnd. inversion Hnd as [|? ? Hk Hks]; subst. split; [|assumption].
      destruct (existsb (String.eqb k) ks) eqn:E; [|reflexivity].
      apply existsb_exists in E. destruct E as [x [Hx Hkx]].
      apply String.eqb_eq in Hkx. subst x. contradiction.
Qed.

Lemma dict_get_In_keys d k v : dict_get k d = Some v -> In k (keys d).
Proof.
  induction d as [|[k' v'] d IH]; simpl; [discriminate|].
  destruct (String.eqb_spec k k') as [->|Hne]; auto.
Qed.

Lemma In_keys_dict_get d k : In k (keys d) -> exists v, dict_get k d = Some v.
Proof.
  induction d as [|[k' v'] d IH]; simpl; [contradiction|].
  intros [->|Hin].
  - rewrite String.eqb_refl. eauto.
  - destruct (String.eqb k k'); eauto.
Qed.

Lemma dict_get_None_keys d k : dict_get k d = None <-> ~ In k (keys d).
Proof.
  split.
  - intros Hn Hin. apply In_keys_dict_get in Hin. destruct Hin. congruence.
  - intros Hn. destruct (dict_get k d) eqn:E; [|reflexivity].
    apply dict_get_In_keys in E. contradiction.
Qed.

Lemma dict_get_setitem_same d k v : dict_get k (dict_setitem k v d) = Some v.
Proof.
  induction d as [|[k' v'] d IH]; simpl.
  - now rewrite String.eqb_refl.
  - destruct (String.eqb k k') eqn:E; simpl.
    + now rewrite String.eqb_refl.
    + now rewrite E.
Qed.

Lemma dict_get_setitem_other d k k' v :
  k' <> k -> dict_get k' (dict_setitem k v d) = dict_get k' d.
Proof.
  intros Hne. induction d as [|[k0 v0] d IH]; simpl.
  - apply String.eqb_neq in Hne. now rewrite Hne.
  - destruct (String.eqb_spec k k0) as [->|Hk]; simpl.
    + apply String.eqb_neq in Hne. now rewrite Hne.
    + now rewrite IH.
Qed.

Lemma dict_get_delitem_other d k k' :
  k' <> k -> dict_get k' (dict_delitem k d) = dict_get k' d.
Proof.
  intros Hne. induction d as [|[k0 v0] d IH]; simpl; [reflexivity|].
  destruct (String.eqb_spec k k0) as [->|Hk]; simpl.
  - apply String.eqb_neq in Hne. now rewrite Hne.
  - now rewrite IH.
Qed.

Lemma keys_delitem_subset d k k' :
  In k' (keys (dict_delitem k d)) -> In k' (keys d).
Proof.
  induction d as [|[k0 v0] d IH]; simpl; [auto|].
  destruct (String.eqb k k0); simpl; intuition.
Qed.

Lemma dict_get_delitem_same d k :
  wf_dict d -> dict_get k (dict_delitem k d) = None.
Proof.
  unfold wf_dict. rewrite distinct_NoDup.
  induction d as [|[k0 v0] d IH]; simpl; intros Hnd; [reflexivity|].
  inversion Hnd as [|? ? Hk0 Hd]; subst.
  destruct (String.eqb_spec k k0) as [->|Hk]; simpl.
  - now apply dict_get_None_keys.
  - apply String.eqb_neq in Hk. rewrite Hk. auto.
Qed.

Lemma len_setitem_present d k v v0 :
  dict_get k d = Some v0 -> len (dict_setitem k v d) = len d.
Proof.
  unfold len. intros H. f_equal. revert H.
  induction d as [|[k' v'] d IH]; simpl; [discriminate|].
  destruct (String.eqb k k'); simpl; auto.
Qed.

Lemma len_setitem_absent d k v :
  dict_get k d = None -> len (dict_setitem k v d) = len d + 1.
Proof.
  unfold len. intros H.
  assert (List.length (dict_setitem k v d) = S (List.length d)) as E.
  { revert H. induction d as [|[k' v'] d IH]; simpl; [reflexivity|].
    destruct (String.eqb k k'); simpl; [discriminate|auto]. }
  rewrite E. lia.
Qed.

Lemma len_setitem_le d k v : len (dict_setitem k v d) <= len d + 1.
Proof.
  destruct (dict_get k d) eqn:E.
  - erewrite len_setitem_present by eassumption. lia.
  - rewrite len_setitem_absent by assumption. lia.
Qed.

Lemma len_delitem_present d k :
  In k (keys d) -> len (dict_delitem k d) = len d - 1.
Proof.
  unfold len. intros H.
  assert (S (List.length (dict_delitem k d)) = List.length d) as E.
  { revert H. induction d as [|[k' v'] d IH]; simpl; [contradiction|].
    destruct (String.eqb_spec k k') as [->|Hne]; simpl; [reflexivity|].
    intros [Heq|Hin]; [congruence|]. f_equal. auto. }
  lia.
Qed.

Lemma len_delitem_ge d k : len d - 1 <= len (dict_delitem k d).
Proof.
  unfold len.
  assert (List.length d <= S (List.length (dict_delitem k d)))%nat as E.
  { induction d as [|[k' v'] d IH]; simpl; [lia|].
    destruct (String.eqb k k'); simpl; lia. }
  lia.
Qed.

Lemma keys_setitem_present d k v v0 :
  dict_get k d = Some v0 -> keys (dict_setitem k v d) = keys d.
Proof.
  induction d as [|[k' v'] d IH]; simpl; [discriminate|].
  destruct (String.eqb_spec k k') as [->|Hne]; simpl; [reflexivity|].
  intros H. f_equal. auto.
Qed.

Lemma keys_setitem_absent d k v :
  dict_get k d = None -> keys (dict_setitem k v d) = keys d ++ [k].
Proof.
  induction d as [|[k' v'] d IH]; simpl; [reflexivity|].
  destruct (String.eqb k k'); simpl; [discriminate|].
  intros H. f_equal. auto.
Qed.

Lemma wf_dict_nil : wf_dict (@nil (string * V)).
Proof. reflexivity. Qed.

Lemma wf_dict_setitem d k v : wf_dict d -> wf_dict (dict_setitem k v d).
Proof.
  unfold wf_dict. rewrite !distinct_NoDup. intros Hnd.
  destruct (dict_get k d) eqn:E.
  - erewrite keys_setitem_present by eassumption. assumption.
  - rewrite keys_setitem_absent by assumption.
    apply NoDup_rev in Hnd. rewrite <- (rev_involutive (keys d ++ [k])).
    apply NoDup_rev. rewrite rev_app_distr. simpl. constructor; [|assumption].
    rewrite <- In_rev. now apply dict_get_None_keys.
Qed.

Lemma wf_dict_delitem d k : wf_dict d -> wf_dict (dict_delitem k d).
Proof.
  unfold wf_dict. rewrite !distinct_NoDup.
  induction d as [|[k0 v0] d IH]; simpl; intros Hnd; [constructor|].
  inversion Hnd as [|? ? Hk0 Hd]; subst.
  destruct (String.eqb k k0); simpl; [assumption|].
  constructor; [|auto].
  intros Hin. apply Hk0. eapply keys_delitem_subset. eassumption.
Qed.

End DictFacts.

(** *** [min] with a key function *)

Lemma min_from_In {A : Type} (key : A -> Z) (l : list A) (best : A) :
  In (min_from key best l) (best :: l).
Proof.
  revert best. induction l as [|x l IH]; intros best; simpl; [auto|].
  destruct (key x <? key best).
  - right. apply IH.
  - destruct (IH best) as [H|H]; [left|right; right]; assumption.
Qed.

Lemma min_from_le_best {A : Type} (key : A -> Z) (l : list A) (best : A) :
  key (min_from key best l) <= key best.
Proof.
  revert best. induction l as [|y l IH]; intros best; simpl; [lia|].
  destruct (Z.ltb_spec (key y) (key best)) as [Hlt|Hge].
  - specialize (IH y). lia.
  - apply IH.
Qed.

Lemma min_from_le {A : Type} (key : A -> Z) (l : list A) (best x : A) :
  In x (best :: l) -> key (min_from key best l) <= key x.
Proof.
  intros [->|Hin]; [apply min_from_le_best|].
  revert best. induction l as [|y l IH]; intros best; simpl; [destruct Hin|].
  destruct Hin as [->|Hin].
  - destruct (Z.ltb_spec (key x) (key best)) as [Hlt|Hge].
    + apply min_from_le_best.
    + pose proof (min_from_le_best key l best). lia.
  - destruct (key y <? key best); apply IH; assumption.
Qed.

Lemma min_from_ext {A : Type} (f g : A -> Z) (l : list A) (best : A) :
  (forall x, f x = g x) -> min_from f best l = min_from g best l.
Proof.
  intros H. revert best. induction l as [|x l IH]; intros best; simpl.
  - reflexivity.
  - rewrite !H. destruct (g x <? g best); apply IH.
Qed.

(* ------------------------------------------------------------------ *)
(** ** The cache operations *)

Section CacheFacts.

Context {Result : Type}.
Implicit Types (self : SearchCache Result) (e : CacheEntry Result).
Implicit Types (d : dict (CacheEntry Result)).

Lemma created_at_of_get d k e :
  dict_get k d = Some e -> created_at_of d k = created_at e.
Proof. unfold created_at_of. now intros ->. Qed.

(** What [_evict_oldest] does on a cache that is not empty. *)
Lemma evict_oldest_nonempty self :
  _cache self <> [] ->
  exists k e,
    dict_get k (_cache self) = Some e /\
    (forall k' e', dict_get k' (_cache self) = Some e' ->
                   created_at e <= created_at e') /\
    _evict_oldest self = with_cache self (dict_delitem k (_cache self)).
Proof.
  unfold _evict_oldest. destruct (_cache self) as [|[k0 e0] d] eqn:Ed.
  - congruence.
  - intros _. cbn [keys map fst].
    set (f := created_at_of ((k0, e0) :: d)).
    set (k := min_from f k0 (map fst d)).
    assert (In k (keys ((k0, e0) :: d))) as Hin by apply min_from_In.
    destruct (In_keys_dict_get _ _ Hin) as [e He].
    exists k, e. split; [assumption|]. split; [|reflexivity].
    intros k' e' He'.
    rewrite <- (created_at_of_get _ _ _ He), <- (created_at_of_get _ _ _ He').
    apply min_from_le. apply (dict_get_In_keys _ _ _ He').
Qed.

Lemma evict_oldest_empty self : _cache self = [] -> _evict_oldest self = self.
Proof. unfold _evict_oldest. now intros ->. Qed.

Lemma evict_oldest_max_size self :
  max_size (_evict_oldest self) = max_size self.
Proof. unfold _evict_oldest. now destruct (keys (_cache self)). Qed.

Lemma evict_oldest_len_ge self :
  len (_cache self) - 1 <= len (_cache (_evict_oldest self)).
Proof.
  unfold _evict_oldest. destruct (keys (_cache self)); simpl.
  - lia.
  - apply len_delitem_ge.
Qed.

Lemma evict_oldest_wf self :
  wf_dict (_cache self) -> wf_dict (_cache (_evict_oldest self)).
Proof.
  unfold _evict_oldest. destruct (keys (_cache self)); simpl; [auto|].
  apply wf_dict_delitem.
Qed.

Lemma set_max_size self now q p res kw :
  max_size (set self now q p res kw) = max_size self.
Proof.
  unfold set. simpl.
  destruct (len (_cache self) >=? max_size self); [|reflexivity].
  apply evict_oldest_max_size.
Qed.

Lemma get_max_size self now q p kw :
  max_size (snd (get self now q p kw)) = max_size self.
Proof.
  unfold get. destruct (dict_get _ _); [|reflexivity].
  now destruct (_ >? _).
Qed.

Lemma set_wf self now q p res kw :
  wf_dict (_cache self) -> wf_dict (_cache (set self now q p res kw)).
Proof.
  intros Hwf. unfold set. simpl. apply wf_dict_setitem.
  destruct (_ >=? _); [now apply evict_oldest_wf | assumption].
Qed.

Lemma get_wf self now q p kw :
  wf_dict (_cache self) -> wf_dict (_cache (snd (get self now q p kw))).
Proof.
  intros Hwf. unfold get. destruct (dict_get _ _); [|assumption].
  destruct (_ >? _); simpl.
  - now apply wf_dict_delitem.
  - now apply wf_dict_setitem.
Qed.

Lemma step_wf self o : wf_dict (_cache self) -> wf_dict (_cache (step self o)).
Proof.
  destruct o; cbn [step]; [apply get_wf | apply set_wf | intros _; reflexivity].
Qed.

(** Every cache reached from the constructor holds a proper dict. *)
Lemma run_wf self ops :
  wf_dict (_cache self) -> wf_dict (_cache (run self ops)).
Proof.
  unfold run. revert self. induction ops as [|o ops IH]; intros self H.
  - assumption.
  - simpl. apply IH. now apply step_wf.
Qed.

Lemma reachable_wf (m t : Z) (ops : list (op Result)) :
  wf_dict (_cache (run (__init__ m t) ops)).
Proof. apply run_wf. apply wf_dict_nil. Qed.

Lemma get_len_le self now q p kw :
  len (_cache (snd (get self now q p kw))) <= len (_cache self).
Proof.
  unfold get. destruct (dict_get _ _) as [e|] eqn:He; [|simpl; lia].
  destruct (_ >? _); simpl.
  - rewrite len_delitem_present by (eapply dict_get_In_keys; eassumption).
    lia.
  - erewrite len_setitem_present by eassumption. lia.
Qed.

Lemma set_len_le self now q p res kw :
  0 < max_size self -> len (_cache self) <= max_size self ->
  len (_cache (set self now q p res kw)) <= max_size self.
Proof.
  intros Hpos Hle. unfold set. simpl.
  destruct (Z.geb_spec (len (_cache self)) (max_size self)) as [Hfull|Hroom].
  - destruct (evict_oldest_nonempty self) as [k [e [He [_ ->]]]].
    { intros E. rewrite E in Hfull. unfold len in Hfull. simpl in Hfull. lia. }
    simpl. pose proof (len_setitem_le (dict_delitem k (_cache self))
                         (_make_key q p kw)
                         {| result := res; created_at := now; hits := 0 |}).
    rewrite len_delitem_present in H
      by (eapply dict_get_In_keys; eassumption).
    lia.
  - pose proof (len_setitem_le (_cache self) (_make_key q p kw)
                  {| result := res; created_at := now; hits := 0 |}).
    lia.
Qed.

Lemma step_bounded self o :
  0 < max_size self -> len (_cache self) <= max_size self ->
  max_size (step self o) = max_size self /\
  len (_cache (step self o)) <= max_size self.
Proof.
  intros Hpos Hle. destruct o; cbn [step].
  - split; [apply get_max_size|].
    pose proof (get_len_le self now query path kwargs). lia.
  - split; [apply set_max_size | now apply set_len_le].
  - split; [reflexivity | unfold len; simpl; lia].
Qed.

Lemma run_bounded ops : forall self,
  0 < max_size self -> len (_cache self) <= max_size self ->
  len (_cache (run self ops)) <= max_size self.
Proof.
  unfold run. induction ops as [|o ops IH]; intros self Hpos Hle; simpl.
  - assumption.
  - destruct (step_bounded self o Hpos Hle) as [Hm Hl].
    rewrite <- Hm. apply IH; rewrite Hm; assumption.
Qed.

(** [rewrite_hits] changes no key, no time stamp and no position. *)
Lemma keys_rewrite_hits f d : keys (rewrite_hits f d) = keys d.
Proof.
  unfold keys, rewrite_hits. rewrite map_map. apply map_ext. reflexivity.
Qed.

Lemma created_at_of_rewrite_hits f d k :
  created_at_of (rewrite_hits f d) k = created_at_of d k.
Proof.
  unfold created_at_of. induction d as [|[k0 e0] d IH]; simpl; [reflexivity|].
  destruct (String.eqb k k0); [reflexivity | assumption].
Qed.

Lemma delitem_rewrite_hits f d k :
  dict_delitem k (rewrite_hits f d) = rewrite_hits f (dict_delitem k d).
Proof.
  induction d as [|[k0 e0] d IH]; simpl; [reflexivity|].
  destruct (String.eqb k k0); simpl; [reflexivity|]. now rewrite IH.
Qed.

Lemma len_rewrite_hits f d : len (rewrite_hits f d) = len d.
Proof. unfold len, rewrite_hits. now rewrite length_map. Qed.

Lemma evict_oldest_rewrite_hits f self :
  _cache (_evict_oldest (with_cache self (rewrite_hits f (_cache self)))) =
  rewrite_hits f (_cache (_evict_oldest self)).
Proof.
  unfold _evict_oldest. cbn [_cache with_cache]. rewrite keys_rewrite_hits.
  destruct (keys (_cache self)) as [|k ks]; [reflexivity|].
  cbn [_cache with_cache]. rewrite <- delitem_rewrite_hits. f_equal.
  apply min_from_ext. intros x. apply created_at_of_rewrite_hits.
Qed.

Lemma total_hits_from d a :
  fold_left Z.add (map hits (values d)) a = a + sum_hits d.
Proof.
  revert a. induction d as [|[k e] d IH]; intros a; simpl; [lia|].
  rewrite IH. lia.
Qed.

Lemma sum_hits_delitem d k e :
  dict_get k d = Some e -> sum_hits d = hits e + sum_hits (dict_delitem k d).
Proof.
  induction d as [|[k0 e0] d IH]; simpl; [discriminate|].
  destruct (String.eqb k k0); simpl.
  - now intros [= ->].
  - intros H. rewrite (IH H). lia.
Qed.

(** C3.  [get] on a key that is absent returns nothing and leaves the
    cache as it is; on an entry older than [ttl_seconds] it removes the
    entry and returns nothing; on a fresh entry it returns the stored
    result and adds exactly one to the entry's [hits]. *)
Theorem get_cases self now q p kw :
  wf_dict (_cache self) ->
  let key := _make_key q p kw in
  let out := get self now q p kw in
  (dict_get key (_cache self) = None -> out = (None, self)) /\
  (forall e, dict_get key (_cache self) = Some e ->
             now - created_at e > ttl_seconds self ->
             fst out = None /\
             dict_get key (_cache (snd out)) = None /\
             len (_cache (snd out)) = len (_cache self) - 1) /\
  (forall e, dict_get key (_cache self) = Some e ->
             now - created_at e <= ttl_seconds self ->
             fst out = Some (result e) /\
             dict_get key (_cache (snd out)) =
               Some {| result := result e;
                       created_at := created_at e;
                       hits := hits e + 1 |} /\
             len (_cache (snd out)) = len (_cache self)).
Proof.
  intros Hwf key out. subst out. unfold get. fold key.
  split; [|split].
  - now intros ->.
  - intros e He Hold. rewrite He.
    destruct (Z.gtb_spec (now - created_at e) (ttl_seconds self)); [|lia].
    simpl. repeat split.
    + now apply dict_get_delitem_same.
    + apply len_delitem_present. eapply dict_get_In_keys; eassumption.
  - intros e He Hfresh. rewrite He.
    destruct (Z.gtb_spec (now - created_at e) (ttl_seconds self)); [lia|].
    simpl. repeat split.
    + apply dict_get_setitem_same.
    + eapply len_setitem_present; eassumption.
Qed.

(** C9.  A [get] touches the entry under the fingerprint it looks up and
    no other: every other key maps to the same entry afterwards, a miss
    leaves the cache as it is, and the removal of an expired entry takes
    exactly one entry out of the dict. *)
Theorem get_frame self now q p kw :
  let key := _make_key q p kw in
  let self' := snd (get self now q p kw) in
  (forall k', k' <> key ->
              dict_get k' (_cache self') = dict_get k' (_cache self)) /\
  (dict_get key (_cache self) = None -> self' = self) /\
  (forall e, dict_get key (_cache self) = Some e ->
             now - created_at e > ttl_seconds self ->
             _cache self' = dict_delitem key (_cache self) /\
             len (_cache self') = len (_cache self) - 1) /\
  max_size self' = max_size self /\ ttl_seconds self' = ttl_seconds self.
Proof.
  intros key self'. subst self'. unfold get. fold key.
  destruct (dict_get key (_cache self)) as [e|] eqn:He.
  - destruct (Z.gtb_spec (now - created_at e) (ttl_seconds self))
      as [Hold|Hfresh]; simpl;
      (split; [|split; [|split; [|split]]]);
      try reflexivity; try discriminate.
    + intros k' Hk'. now apply dict_get_delitem_other.
    + intros e' He' _. split; [reflexivity|].
      apply len_delitem_present. eapply dict_get_In_keys; eassumption.
    + intros k' Hk'. now apply dict_get_setitem_other.
    + intros e' He' Hold. injection He' as <-. lia.
  - simpl. (split; [|split; [|split; [|split]]]);
      try reflexivity; discriminate.
Qed.

(** C4.  A [set] on a cache that already holds [max_size] entries or
    more (for a positive [max_size]) first evicts exactly one entry, one
    whose [created_at] is smallest among all the entries, and then
    stores the new entry; rewriting the [hits] of the entries in any way
    leads to the eviction of the same key. *)
Theorem set_at_capacity_evicts_oldest self now q p res kw :
  wf_dict (_cache self) ->
  0 < max_size self ->
  len (_cache self) >= max_size self ->
  exists k e,
    dict_get k (_cache self) = Some e /\
    (forall k' e', dict_get k' (_cache self) = Some e' ->
                   created_at e <= created_at e') /\
    let evicted := dict_delitem k (_cache self) in
    let fresh := {| result := res; created_at := now; hits := 0 |} in
    _cache (_evict_oldest self) = evicted /\
    len evicted = len (_cache self) - 1 /\
    dict_get k evicted = None /\
    (forall k', k' <> k -> dict_get k' evicted = dict_get k' (_cache self)) /\
    _cache (set self now q p res kw) =
      dict_setitem (_make_key q p kw) fresh evicted /\
    (forall f,
        _cache (set (with_cache self (rewrite_hits f (_cache self)))
                    now q p res kw) =
        dict_setitem (_make_key q p kw) fresh (rewrite_hits f evicted)).
Proof.
  intros Hwf Hpos Hfull.
  destruct (evict_oldest_nonempty self) as [k [e [He [Hmin Hev]]]].
  { intros E. rewrite E in Hfull. unfold len in Hfull. simpl in Hfull. lia. }
  exists k, e. split; [assumption|]. split; [assumption|]. cbv zeta.
  split; [now rewrite Hev|].
  split; [apply len_delitem_present; eapply dict_get_In_keys; eassumption|].
  split; [now apply dict_get_delitem_same|].
  split; [intros k' Hk'; now apply dict_get_delitem_other|].
  split.
  - unfold set.
    destruct (Z.geb_spec (len (_cache self)) (max_size self)); [|lia].
    now rewrite Hev.
  - intros f. unfold set. cbn [_cache with_cache max_size].
    rewrite len_rewrite_hits.
    destruct (Z.geb_spec (len (_cache self)) (max_size self)); [|lia].
    cbn [_cache with_cache]. rewrite evict_oldest_rewrite_hits.
    now rewrite Hev.
Qed.

(** C5.  From the empty cache of a positive [max_size], after any
    sequence of [get], [set] and [clear] the dict holds at most
    [max_size] entries. *)
Theorem capacity_invariant (m t : Z) (ops : list (op Result)) :
  0 < m ->
  len (_cache (run (__init__ m t) ops)) <= m.
Proof.
  intros Hpos.
  apply (run_bounded ops (__init__ m t)); simpl; [assumption|].
  unfold len. simpl. lia.
Qed.

(** C7.  [stats] reports the number of stored entries and the sum of
    their [hits]; it does not look at the clock, so an entry that has
    expired and has not been purged counts for one entry and for its
    hits, and no longer does once a [get] has removed it. *)
Theorem stats_snapshot self :
  entries (stats self) = len (_cache self) /\
  stats_max_size (stats self) = max_size self /\
  total_hits (stats self) = sum_hits (_cache self) /\
  (forall now q p kw e,
      dict_get (_make_key q p kw) (_cache self) = Some e ->
      now - created_at e > ttl_seconds self ->
      let purged := snd (get self now q p kw) in
      total_hits (stats self) = hits e + total_hits (stats purged) /\
      entries (stats self) = 1 + entries (stats purged)).
Proof.
  unfold stats. cbn [entries stats_max_size total_hits].
  rewrite total_hits_from.
  split; [reflexivity|]. split; [reflexivity|]. split; [lia|].
  intros now q p kw e He Hold. cbv zeta.
  rewrite total_hits_from. unfold get. rewrite He.
  destruct (Z.gtb_spec (now - created_at e) (ttl_seconds self)); [|lia].
  cbn [snd _cache with_cache]. split.
  - rewrite (sum_hits_delitem _ _ _ He). lia.
  - rewrite len_delitem_present by (eapply dict_get_In_keys; eassumption).
    lia.
Qed.

(** C10.  The constructor stores a [max_size] of zero or less as it is;
    on the empty cache it builds, the eviction does nothing and [set]
    stores its entry, after which the dict holds one entry, more than
    [max_size].  No eviction removes more than one entry. *)
Theorem nonpositive_max_size_unchecked (m t : Z) now q p (res : Result) kw :
  m <= 0 ->
  let c := __init__ m t in
  let c' := set c now q p res kw in
  max_size c = m /\
  _cache c = [] /\
  _evict_oldest c = c /\
  _cache c' =
    [(_make_key q p kw, {| result := res; created_at := now; hits := 0 |})] /\
  len (_cache c') = 1 /\
  max_size c' < len (_cache c') /\
  (forall self, len (_cache self) - 1 <= len (_cache (_evict_oldest self))).
Proof.
  intros Hm c c'. subst c c'. unfold set, __init__.
  cbn [_cache max_size with_cache].
  destruct (Z.geb_spec (len (@nil (string * CacheEntry Result))) m) as [_|H];
    [|unfold len in H; simpl in H; lia].
  repeat split; try reflexivity.
  - unfold len. simpl. lia.
  - apply evict_oldest_len_ge.
Qed.

(** C1, as amended.  A [set] under a fingerprint that is already in the
    dict leaves, under that fingerprint, a new entry with
    [created_at = now] and [hits = 0].  While the dict holds fewer than
    [max_size] entries nothing else changes.  When it holds [max_size]
    entries or more, the capacity check runs as for any [set]: an entry
    with the smallest [created_at] is evicted first, and when that is an
    entry under another key, that entry is gone and the dict is one
    entry shorter. *)
Theorem set_overwrite self now q p res kw e0 :
  wf_dict (_cache self) ->
  let key := _make_key q p kw in
  let fresh := {| result := res; created_at := now; hits := 0 |} in
  let self' := set self now q p res kw in
  dict_get key (_cache self) = Some e0 ->
  dict_get key (_cache self') = Some fresh /\
  (len (_cache self) < max_size self ->
     len (_cache self') = len (_cache self) /\
     keys (_cache self') = keys (_cache self) /\
     forall k', k' <> key ->
                dict_get k' (_cache self') = dict_get k' (_cache self)) /\
  (len (_cache self) >= max_size self ->
     exists k e,
       dict_get k (_cache self) = Some e /\
       (forall k' e', dict_get k' (_cache self) = Some e' ->
                      created_at e <= created_at e') /\
       _cache self' = dict_setitem key fresh (dict_delitem k (_cache self)) /\
       (k <> key ->
          dict_get k (_cache self') = None /\
          len (_cache self') = len (_cache self) - 1)).
Proof.
  intros Hwf key fresh self' Hpresent. subst self'. unfold set.
  fold key. fold fresh. cbn [_cache with_cache].
  split; [apply dict_get_setitem_same|].
  destruct (Z.geb_spec (len (_cache self)) (max_size self)) as [Hfull|Hroom].
  - split; [lia|]. intros _.
    destruct (evict_oldest_nonempty self) as [k [e [He [Hmin Hev]]]].
    { intros E. rewrite E in Hpresent. discriminate. }
    exists k, e. rewrite Hev. cbn [_cache with_cache].
    split; [assumption|]. split; [assumption|]. split; [reflexivity|].
    intros Hk. split.
    + rewrite dict_get_setitem_other by assumption.
      now apply dict_get_delitem_same.
    + rewrite (len_setitem_present _ _ _ e0).
      * apply len_delitem_present. eapply dict_get_In_keys; eassumption.
      * rewrite dict_get_delitem_other by congruence. assumption.
  - split; [|lia]. intros _. split; [|split].
    + eapply len_setitem_present; eassumption.
    + eapply keys_setitem_present; eassumption.
    + intros k' Hk'. now apply dict_get_setitem_other.
Qed.

End CacheFacts.

(* ------------------------------------------------------------------ *)
(** ** The fingerprint *)

Section Fingerprint.

(** The order of [str] is a strict total order. *)
Lemma ltb_lt (a b : string) : String.ltb a b = true <-> String_as_OT.lt a b.
Proof.
  unfold String.ltb. rewrite <- String_as_OT.cmp_lt. unfold String_as_OT.cmp.
  destruct (String.compare a b); split; congruence.
Qed.

Lemma ltb_trans (a b c : string) :
  String.ltb a b = true -> String.ltb b c = true -> String.ltb a c = true.
Proof. rewrite !ltb_lt. apply String_as_OT.lt_trans. Qed.

Lemma ltb_irrefl (a : string) : String.ltb a a = false.
Proof.
  destruct (String.ltb a a) eqn:E; [|reflexivity].
  apply ltb_lt in E. apply String_as_OT.lt_not_eq in E.
  exfalso. apply E. reflexivity.
Qed.

Lemma ltb_total (a b : string) :
  a <> b -> String.ltb a b = false -> String.ltb b a = true.
Proof.
  unfold String.ltb. rewrite (String.compare_antisym b a).
  destruct (String.compare a b) eqn:E; simpl; try congruence.
  apply String.compare_eq_iff in E. congruence.
Qed.

Lemma insert_item_perm x l : Permutation (insert_item x l) (x :: l).
Proof.
  induction l as [|y l IH]; simpl; [reflexivity|].
  destruct (item_ltb y x); [|reflexivity].
  rewrite IH. apply perm_swap.
Qed.

Lemma sorted_perm l : Permutation (sorted l) l.
Proof.
  induction l as [|x l IH]; simpl; [reflexivity|].
  rewrite insert_item_perm. now constructor.
Qed.

Lemma insert_item_sorted x l :
  StronglySorted name_lt l ->
  (forall y, In y l -> fst y <> fst x) ->
  StronglySorted name_lt (insert_item x l).
Proof.
  induction 1 as [|y l Hl IH Hy]; intros Hfresh; simpl.
  - repeat constructor.
  - destruct (item_ltb y x) eqn:E.
    + constructor.
      * apply IH. intros z Hz. apply Hfresh. now right.
      * rewrite Forall_forall in *. intros z Hz.
        apply (Permutation_in _ (insert_item_perm x l)) in Hz.
        destruct Hz as [<-|Hz]; [assumption | now apply Hy].
    + assert (name_lt x y) as Hxy.
      { apply ltb_total; [|assumption]. apply Hfresh. now left. }
      constructor; [now constructor|].
      constructor; [assumption|].
      rewrite Forall_forall in *. intros z Hz.
      unfold name_lt, item_ltb in *. eapply ltb_trans; eauto.
Qed.

Lemma sorted_strongly l :
  NoDup (map fst l) -> StronglySorted name_lt (sorted l).
Proof.
  induction l as [|x l IH]; simpl; intros Hnd; [constructor|].
  inversion Hnd as [|? ? Hx Hl]; subst.
  apply insert_item_sorted; [auto|].
  intros y Hy Heq. apply Hx. rewrite <- Heq. apply in_map.
  now apply (Permutation_in _ (sorted_perm l)).
Qed.

Lemma strongly_sorted_unique l1 : forall l2,
  StronglySorted name_lt l1 -> StronglySorted name_lt l2 ->
  Permutation l1 l2 -> l1 = l2.
Proof.
  induction l1 as [|a l1 IH]; intros l2 H1 H2 Hp.
  - apply Permutation_nil in Hp. now subst.
  - destruct l2 as [|b l2].
    { apply Permutation_sym, Permutation_nil in Hp. discriminate. }
    inversion H1 as [|? ? Hs1 Ha]; subst.
    inversion H2 as [|? ? Hs2 Hb]; subst.
    rewrite Forall_forall in Ha, Hb.
    assert (a = b) as ->.
    { assert (In a (b :: l2)) as Hina
          by (apply (Permutation_in _ Hp); now left).
      assert (In b (a :: l1)) as Hinb
          by (apply (Permutation_in _ (Permutation_sym Hp)); now left).
      destruct Hina as [->|Hina]; [reflexivity|].
      destruct Hinb as [->|Hinb]; [reflexivity|].
      apply Hb in Hina. apply Ha in Hinb.
      unfold name_lt, item_ltb in *.
      pose proof (ltb_trans _ _ _ Hina Hinb) as Hcyc.
      rewrite ltb_irrefl in Hcyc. discriminate. }
    f_equal. apply IH; try assumption.
    eapply Permutation_cons_inv. eassumption.
Qed.

Lemma sorted_order_independent kw1 kw2 :
  NoDup (map fst kw1) -> Permutation kw1 kw2 -> sorted kw1 = sorted kw2.
Proof.
  intros Hnd Hp.
  assert (NoDup (map fst kw2)) as Hnd2.
  { eapply Permutation_NoDup; [|eassumption]. now apply Permutation_map. }
  apply strongly_sorted_unique; try now apply sorted_strongly.
  rewrite !sorted_perm. assumption.
Qed.

(** The key string tells apart two queries with the same path and
    keyword arguments, and two paths with the same query and keyword
    arguments. *)
Lemma length_append (s1 s2 : string) :
  String.length (s1 ++ s2)%string = (String.length s1 + String.length s2)%nat.
Proof. induction s1 as [|a s1 IH]; simpl; [reflexivity | now rewrite IH]. Qed.

Lemma append_cancel_r (s1 s2 r : string) :
  (s1 ++ r)%string = (s2 ++ r)%string -> s1 = s2.
Proof.
  revert s2. induction s1 as [|a s1 IH]; intros [|b s2] H; simpl in H.
  - reflexivity.
  - apply (f_equal String.length) in H. simpl in H.
    rewrite length_append in H. lia.
  - apply (f_equal String.length) in H. simpl in H.
    rewrite length_append in H. lia.
  - injection H as -> H. f_equal. now apply IH.
Qed.

Lemma append_cancel_l (s r1 r2 : string) :
  (s ++ r1)%string = (s ++ r2)%string -> r1 = r2.
Proof.
  induction s as [|a s IH]; simpl; intros H; [assumption|].
  injection H as H. auto.
Qed.

Lemma key_data_query_sensitive q q' p kw :
  key_data q p kw = key_data q' p kw -> q = q'.
Proof. unfold key_data. simpl. apply append_cancel_r. Qed.

Lemma key_data_path_sensitive q p p' kw :
  key_data q p kw = key_data q p' kw -> p = p'.
Proof.
  unfold key_data. simpl. intros H.
  apply append_cancel_l in H. injection H as H.
  revert H. apply append_cancel_r.
Qed.

(** C6.  The fingerprint is a function of the query, the path and the
    set of keyword arguments: two calls whose keyword arguments hold the
    same name-value pairs, in whatever order they were passed, get the
    same key, and so does a call repeated as it is. *)
Theorem make_key_order_independent query path kw1 kw2 :
  distinct (map fst kw1) = true ->
  Permutation kw1 kw2 ->
  _make_key query path kw1 = _make_key query path kw2.
Proof.
  intros Hd Hp. apply distinct_NoDup in Hd.
  unfold _make_key, key_data.
  now rewrite (sorted_order_independent kw1 kw2 Hd Hp).
Qed.

End Fingerprint.

(* ------------------------------------------------------------------ *)
(** ** The properties on the sample runs *)

(** C2.  The key string joins the query, the path and the keyword
    arguments with colons and escapes nothing, so a colon can move from
    the query to the path: the calls [("a:b", "c")] and [("a", "b:c")]
    differ in two fields, hash the same string and get the same
    fingerprint, and a [get] for the second is served the result stored
    for the first. *)
Theorem make_key_separator_collision :
  ("a:b", "c") <> ("a", "b:c") /\
  key_data "a:b" "c" [] = "a:b:c:[]" /\
  key_data "a" "b:c" [] = "a:b:c:[]" /\
  _make_key "a:b" "c" [] = _make_key "a" "b:c" [] /\
  fst (get (set (__init__ 10 60) 0 "a:b" "c" "matches of a:b in c" [])
           1 "a" "b:c" []) = Some "matches of a:b in c".
Proof.
  split; [discriminate|].
  split; [reflexivity|]. split; [reflexivity|].
  split; vm_compute; reflexivity.
Qed.

(** C1, as stated, fails: [full_cache] holds as many entries as its
    [max_size], the fingerprint of [("q2", "/p")] is in it, and the [set]
    that overwrites this entry evicts the entry of [("q1", "/p")]. *)
Lemma overwrite_when_full_evicts_other :
  let k1 := _make_key "q1" "/p" [] in
  let k2 := _make_key "q2" "/p" [] in
  let after := set full_cache 3 "q2" "/p" "r2b" [] in
  len (_cache full_cache) = max_size full_cache /\
  dict_get k2 (_cache full_cache) =
    Some {| result := "r2"; created_at := 2; hits := 0 |} /\
  dict_get k1 (_cache full_cache) =
    Some {| result := "r1"; created_at := 1; hits := 0 |} /\
  dict_get k1 (_cache after) = None /\
  len (_cache after) = 1.
Proof. vm_compute. repeat split; reflexivity. Qed.

Lemma set_overwrite_witness :
  wf_dict (_cache full_cache) /\
  dict_get (_make_key "q1" "/p" []) (_cache full_cache) =
    Some {| result := "r1"; created_at := 1; hits := 0 |} /\
  dict_get (_make_key "q1" "/p" [])
           (_cache (set full_cache 3 "q1" "/p" "r1b" [])) =
    Some {| result := "r1b"; created_at := 3; hits := 0 |}.
Proof.
  assert (wf_dict (_cache full_cache)) as Hwf by (vm_compute; reflexivity).
  assert (dict_get (_make_key "q1" "/p" []) (_cache full_cache) =
          Some {| result := "r1"; created_at := 1; hits := 0 |}) as Hin
      by (vm_compute; reflexivity).
  split; [exact Hwf|]. split; [exact Hin|].
  exact (proj1 (set_overwrite full_cache 3 "q1" "/p" "r1b" [] _ Hwf Hin)).
Defined.

Lemma get_cases_witness :
  wf_dict (_cache full_cache) /\
  fst (get full_cache 5 "q1" "/p" []) = Some "r1" /\
  fst (get full_cache 302 "q1" "/p" []) = None /\
  get full_cache 5 "q3" "/p" [] = (None, full_cache).
Proof.
  assert (wf_dict (_cache full_cache)) as Hwf by (vm_compute; reflexivity).
  assert (dict_get (_make_key "q1" "/p" []) (_cache full_cache) =
          Some {| result := "r1"; created_at := 1; hits := 0 |}) as Hin
      by (vm_compute; reflexivity).
  split; [exact Hwf|].
  split; [|split].
  - destruct (get_cases full_cache 5 "q1" "/p" [] Hwf) as [_ [_ Hfresh]].
    apply (Hfresh _ Hin). vm_compute. discriminate.
  - destruct (get_cases full_cache 302 "q1" "/p" [] Hwf) as [_ [Hold _]].
    apply (Hold _ Hin). vm_compute. reflexivity.
  - destruct (get_cases full_cache 5 "q3" "/p" [] Hwf) as [Hmiss _].
    apply Hmiss. vm_compute. reflexivity.
Defined.

Lemma get_frame_witness :
  dict_get (_make_key "q1" "/p" []) (_cache full_cache) =
    Some {| result := "r1"; created_at := 1; hits := 0 |} /\
  302 - 1 > ttl_seconds full_cache /\
  len (_cache (snd (get full_cache 302 "q1" "/p" []))) = 1 /\
  dict_get (_make_key "q2" "/p" [])
           (_cache (snd (get full_cache 302 "q1" "/p" []))) =
    dict_get (_make_key "q2" "/p" []) (_cache full_cache).
Proof.
  assert (dict_get (_make_key "q1" "/p" []) (_cache full_cache) =
          Some {| result := "r1"; created_at := 1; hits := 0 |}) as Hin
      by (vm_compute; reflexivity).
  assert (302 - 1 > ttl_seconds full_cache) as Hold by (vm_compute; reflexivity).
  destruct (get_frame full_cache 302 "q1" "/p" []) as [Hother [_ [Hdel _]]].
  split; [exact Hin|]. split; [exact Hold|]. split.
  - rewrite (proj2 (Hdel _ Hin Hold)). vm_compute. reflexivity.
  - apply Hother. vm_compute. discriminate.
Defined.

Lemma set_at_capacity_witness :
  wf_dict (_cache full_cache) /\
  0 < max_size full_cache /\
  len (_cache full_cache) >= max_size full_cache /\
  exists k e,
    dict_get k (_cache full_cache) = Some e /\
    _cache (set full_cache 3 "q3" "/p" "r3" []) =
      dict_setitem (_make_key "q3" "/p" [])
                   {| result := "r3"; created_at := 3; hits := 0 |}
                   (dict_delitem k (_cache full_cache)).
Proof.
  assert (wf_dict (_cache full_cache)) as Hwf by (vm_compute; reflexivity).
  assert (0 < max_size full_cache) as Hpos by (vm_compute; reflexivity).
  assert (len (_cache full_cache) >= max_size full_cache) as Hfull
      by (vm_compute; discriminate).
  split; [exact Hwf|]. split; [exact Hpos|]. split; [exact Hfull|].
  destruct (set_at_capacity_evicts_oldest full_cache 3 "q3" "/p" "r3" []
              Hwf Hpos Hfull)
    as [k [e [He [_ [_ [_ [_ [_ [Hset _]]]]]]]]].
  exists k, e. split; [exact He | exact Hset].
Defined.

Lemma capacity_invariant_witness :
  0 < 2 /\
  len (_cache (run (__init__ 2 300)
                   [OpSet 1 "q1" "/p" "r1" []; OpSet 2 "q2" "/p" "r2" [];
                    OpGet 3 "q1" "/p" []; OpSet 4 "q3" "/p" "r3" [];
                    OpSet 5 "q4" "/p" "r4" []; OpClear;
                    OpSet 6 "q1" "/p" "r1" []])) <= 2.
Proof. split; [lia | apply capacity_invariant; lia]. Defined.

Lemma make_key_order_independent_witness :
  distinct (map fst [kw_fuzzy; kw_max_results]) = true /\
  Permutation [kw_fuzzy; kw_max_results] [kw_max_results; kw_fuzzy] /\
  _make_key "movement" "/docs" [kw_fuzzy; kw_max_results] =
  _make_key "movement" "/docs" [kw_max_results; kw_fuzzy].
Proof.
  split; [reflexivity|]. split; [apply perm_swap|].
  apply make_key_order_independent; [reflexivity | apply perm_swap].
Defined.

Lemma stats_snapshot_witness :
  dict_get (_make_key "q1" "/p" []) (_cache hit_cache) =
    Some {| result := "r1"; created_at := 1; hits := 2 |} /\
  302 - 1 > ttl_seconds hit_cache /\
  total_hits (stats hit_cache) =
    2 + total_hits (stats (snd (get hit_cache 302 "q1" "/p" []))) /\
  entries (stats hit_cache) =
    1 + entries (stats (snd (get hit_cache 302 "q1" "/p" []))).
Proof.
  assert (dict_get (_make_key "q1" "/p" []) (_cache hit_cache) =
          Some {| result := "r1"; created_at := 1; hits := 2 |}) as Hin
      by (vm_compute; reflexivity).
  assert (302 - 1 > ttl_seconds hit_cache) as Hold by (vm_compute; reflexivity).
  split; [exact Hin|]. split; [exact Hold|].
  destruct (stats_snapshot hit_cache) as [_ [_ [_ Hexp]]].
  exact (Hexp 302 "q1" "/p" [] _ Hin Hold).
Defined.

Lemma nonpositive_max_size_witness :
  0 <= 0 /\
  len (_cache (set (__init__ 0 300) 1 "q1" "/p" "r1" [])) = 1 /\
  max_size (set (__init__ 0 300) 1 "q1" "/p" "r1" []) <
  len (_cache (set (__init__ 0 300) 1 "q1" "/p" "r1" [])).
Proof.
  split; [lia|].
  destruct (nonpositive_max_size_unchecked 0 300 1 "q1" "/p" "r1" [])
    as [_ [_ [_ [_ [Hlen [Hover _]]]]]]; [lia|].
  split; [exact Hlen | exact Hover].
Defined.

(* ------------------------------------------------------------------ *)
(** ** How the cache operations compose *)

Section CacheRuns.

Context {Result : Type}.
Implicit Types (self : SearchCache Result) (e : CacheEntry Result).
Implicit Types (d : dict (CacheEntry Result)).

Lemma evict_oldest_ttl self :
  ttl_seconds (_evict_oldest self) = ttl_seconds self.
Proof. unfold _evict_oldest. now destruct (keys (_cache self)). Qed.

Lemma set_ttl self now q p res kw :
  ttl_seconds (set self now q p res kw) = ttl_seconds self.
Proof.
  unfold set. cbn [ttl_seconds with_cache].
  destruct (len (_cache self) >=? max_size self); [|reflexivity].
  apply evict_oldest_ttl.
Qed.

Lemma get_ttl self now q p kw :
  ttl_seconds (snd (get self now q p kw)) = ttl_seconds self.
Proof.
  unfold get. destruct (dict_get _ _); [|reflexivity].
  now destruct (_ >? _).
Qed.

Lemma set_stores self now q p res kw :
  dict_get (_make_key q p kw) (_cache (set self now q p res kw)) =
  Some {| result := res; created_at := now; hits := 0 |}.
Proof. unfold set. cbn [_cache with_cache]. apply dict_get_setitem_same. Qed.

(** A value that has just been stored is served for as long as its age is
    within [ttl_seconds], whatever the cache held before and whatever its
    capacity; the first such [get] leaves the entry with one hit. *)
Theorem set_then_get_fresh self now now' q p res kw :
  now' - now <= ttl_seconds self ->
  let out := get (set self now q p res kw) now' q p kw in
  fst out = Some res /\
  dict_get (_make_key q p kw) (_cache (snd out)) =
    Some {| result := res; created_at := now; hits := 1 |}.
Proof.
  intros Hfresh out. subst out. unfold get.
  rewrite set_stores, set_ttl. cbn [created_at result hits].
  destruct (Z.gtb_spec (now' - now) (ttl_seconds self)); [lia|].
  cbn [fst snd _cache with_cache]. split; [reflexivity|].
  apply dict_get_setitem_same.
Qed.

(** A value stored longer ago than [ttl_seconds] is not served: the [get]
    returns nothing and removes the entry, and the next [get] for the key,
    at any time, is a plain miss. *)
Theorem set_then_get_expired self now now' now'' q p res kw :
  wf_dict (_cache self) ->
  now' - now > ttl_seconds self ->
  let out := get (set self now q p res kw) now' q p kw in
  fst out = None /\
  dict_get (_make_key q p kw) (_cache (snd out)) = None /\
  get (snd out) now'' q p kw = (None, snd out).
Proof.
  intros Hwf Hold out.
  assert (fst out = None /\
          dict_get (_make_key q p kw) (_cache (snd out)) = None) as [H1 H2].
  { subst out. unfold get.
    rewrite set_stores, set_ttl. cbn [created_at result hits].
    destruct (Z.gtb_spec (now' - now) (ttl_seconds self)); [|lia].
    cbn [fst snd _cache with_cache]. split; [reflexivity|].
    apply dict_get_delitem_same. now apply set_wf. }
  split; [assumption|]. split; [assumption|].
  unfold get at 1. now rewrite H2.
Qed.

(** [get] returns a result exactly when the dict holds an entry under the
    fingerprint whose age is within [ttl_seconds], and the result is that
    entry's: an expired entry is never served. *)
Theorem get_some_iff self now q p kw (r : Result) :
  fst (get self now q p kw) = Some r <->
  exists e, dict_get (_make_key q p kw) (_cache self) = Some e /\
            result e = r /\
            now - created_at e <= ttl_seconds self.
Proof.
  unfold get. destruct (dict_get _ _) as [e|] eqn:He.
  - destruct (Z.gtb_spec (now - created_at e) (ttl_seconds self)) as [Ho|Hf];
      cbn [fst]; split.
    + discriminate.
    + intros [e' [[= <-] [_ Hle]]]. lia.
    + intros [= <-]. exists e. split; [reflexivity|].
      split; [reflexivity | lia].
    + intros [e' [[= <-] [<- _]]]. reflexivity.
  - cbn [fst]. split; [discriminate|]. intros [e' [He' _]]. discriminate.
Qed.

Lemma sum_hits_setitem d k e e' :
  dict_get k d = Some e ->
  sum_hits (dict_setitem k e' d) = sum_hits d - hits e + hits e'.
Proof.
  induction d as [|[k0 e0] d IH]; simpl; [discriminate|].
  destruct (String.eqb k k0); simpl.
  - intros [= ->]. lia.
  - intros H. rewrite (IH H). lia.
Qed.

(** A hit adds exactly one to [stats.total_hits] and leaves
    [stats.entries] as it is. *)
Theorem hit_counts_once self now q p kw e :
  dict_get (_make_key q p kw) (_cache self) = Some e ->
  now - created_at e <= ttl_seconds self ->
  let self' := snd (get self now q p kw) in
  total_hits (stats self') = total_hits (stats self) + 1 /\
  entries (stats self') = entries (stats self).
Proof.
  intros He Hfresh self'. subst self'.
  unfold stats. cbn [entries total_hits]. rewrite !total_hits_from.
  unfold get. rewrite He.
  destruct (Z.gtb_spec (now - created_at e) (ttl_seconds self)); [lia|].
  cbn [snd _cache with_cache]. split.
  - rewrite (sum_hits_setitem _ _ e) by assumption. cbn [hits]. lia.
  - eapply len_setitem_present; eassumption.
Qed.

Lemma get_hit self now q p kw e :
  dict_get (_make_key q p kw) (_cache self) = Some e ->
  now - created_at e <= ttl_seconds self ->
  get self now q p kw =
  (Some (result e),
   with_cache self
     (dict_setitem (_make_key q p kw)
        {| result := result e; created_at := created_at e;
           hits := hits e + 1 |} (_cache self))).
Proof.
  intros He Hfresh. unfold get. rewrite He.
  now destruct (Z.gtb_spec (now - created_at e) (ttl_seconds self)); [lia|].
Qed.

Lemma get_expired self now q p kw e :
  dict_get (_make_key q p kw) (_cache self) = Some e ->
  now - created_at e > ttl_seconds self ->
  get self now q p kw =
  (None, with_cache self (dict_delitem (_make_key q p kw) (_cache self))).
Proof.
  intros He Hold. unfold get. rewrite He.
  now destruct (Z.gtb_spec (now - created_at e) (ttl_seconds self)); [|lia].
Qed.

Lemma get_miss self now q p kw :
  dict_get (_make_key q p kw) (_cache self) = None ->
  get self now q p kw = (None, self).
Proof. intros He. unfold get. now rewrite He. Qed.

Lemma total_hits_stats self : total_hits (stats self) = sum_hits (_cache self).
Proof. unfold stats. cbn [total_hits]. rewrite total_hits_from. lia. Qed.

Lemma run_app self (ops1 ops2 : list (op Result)) :
  run self (ops1 ++ ops2) = run (run self ops1) ops2.
Proof. unfold run. apply fold_left_app. Qed.

Lemma run_cons self (o : op Result) (ops : list (op Result)) :
  run self (o :: ops) = run (step self o) ops.
Proof. reflexivity. Qed.

Lemma gets_accumulate q p kw (res : Result) now (times : list time) :
  forall self h,
    Forall (fun t => t - now <= ttl_seconds self) times ->
    dict_get (_make_key q p kw) (_cache self) =
      Some {| result := res; created_at := now; hits := h |} ->
    let self' := run self (map (fun t => OpGet t q p kw) times) in
    dict_get (_make_key q p kw) (_cache self') =
      Some {| result := res; created_at := now;
              hits := h + Z.of_nat (List.length times) |} /\
    sum_hits (_cache self') =
      sum_hits (_cache self) + Z.of_nat (List.length times) /\
    len (_cache self') = len (_cache self).
Proof.
  induction times as [|t times IH]; intros self h Hall He; cbv zeta.
  - simpl. rewrite Z.add_0_r. repeat split; [assumption | lia].
  - inversion Hall as [|? ? Ht Hts]; subst.
    cbn [map]. rewrite run_cons. cbn [step].
    rewrite (get_hit _ _ _ _ _ _ He Ht). cbn [snd result created_at hits].
    set (c1 := with_cache self _).
    assert (dict_get (_make_key q p kw) (_cache c1) =
            Some {| result := res; created_at := now; hits := h + 1 |}) as H1
        by apply dict_get_setitem_same.
    destruct (IH c1 (h + 1) Hts H1) as [Hget [Hsum Hlen]].
    rewrite Hget, Hsum, Hlen. subst c1. cbn [_cache with_cache].
    rewrite (sum_hits_setitem _ _ _ _ He).
    rewrite (len_setitem_present _ _ _ _ He).
    cbn [hits List.length]. repeat split; try lia.
    do 2 f_equal. lia.
Qed.

(** A value stored and then read [n] times within its [ttl_seconds] has
    [n] hits, and those reads add [n] to [stats.total_hits] and nothing to
    [stats.entries]. *)
Theorem gets_after_set_count self now q p res kw (times : list time) :
  Forall (fun t => t - now <= ttl_seconds self) times ->
  let stored := set self now q p res kw in
  let self' := run stored (map (fun t => OpGet t q p kw) times) in
  dict_get (_make_key q p kw) (_cache self') =
    Some {| result := res; created_at := now;
            hits := Z.of_nat (List.length times) |} /\
  total_hits (stats self') =
    total_hits (stats stored) + Z.of_nat (List.length times) /\
  entries (stats self') = entries (stats stored).
Proof.
  intros Hall stored self'. subst self'.
  rewrite !total_hits_stats. unfold stats at 1 2. cbn [entries].
  assert (Forall (fun t => t - now <= ttl_seconds stored) times) as Hall'.
  { eapply Forall_impl; [|exact Hall]. intros t Ht. subst stored.
    now rewrite set_ttl. }
  apply (gets_accumulate q p kw res now times stored 0 Hall').
  apply set_stores.
Qed.

(** [clear] brings the cache back to the state the constructor builds for
    the same [max_size] and [ttl_seconds]: every [get] misses and changes
    nothing, and the statistics are back to zero. *)
Theorem clear_resets self now q p kw :
  clear self = __init__ (max_size self) (ttl_seconds self) /\
  get (clear self) now q p kw = (None, clear self) /\
  entries (stats (clear self)) = 0 /\
  total_hits (stats (clear self)) = 0.
Proof. repeat split. Qed.

Lemma dict_setitem_absent d k (v : CacheEntry Result) :
  dict_get k d = None -> dict_setitem k v d = d ++ [(k, v)].
Proof.
  induction d as [|[k0 v0] d IH]; simpl; [reflexivity|].
  destruct (String.eqb k k0); [discriminate|].
  intros H. now rewrite IH.
Qed.

(** While there is room, storing under a new fingerprint appends the new
    entry after the entries already there and touches none of them. *)
Theorem set_new_key_with_room self now q p res kw :
  dict_get (_make_key q p kw) (_cache self) = None ->
  len (_cache self) < max_size self ->
  _cache (set self now q p res kw) =
  _cache self ++
    [(_make_key q p kw, {| result := res; created_at := now; hits := 0 |})].
Proof.
  intros Habs Hroom. unfold set.
  destruct (Z.geb_spec (len (_cache self)) (max_size self)); [lia|].
  cbn [_cache with_cache]. now apply dict_setitem_absent.
Qed.

(** On a cache that is full, storing under a new fingerprint keeps the
    number of entries: one entry under another key leaves, and from then
    on a [get] under that key is a miss. *)
Theorem set_new_key_when_full self now q p res kw :
  wf_dict (_cache self) ->
  0 < max_size self ->
  len (_cache self) >= max_size self ->
  dict_get (_make_key q p kw) (_cache self) = None ->
  let self' := set self now q p res kw in
  len (_cache self') = len (_cache self) /\
  exists k e,
    k <> _make_key q p kw /\
    dict_get k (_cache self) = Some e /\
    dict_get k (_cache self') = None /\
    forall now' q' p' kw',
      _make_key q' p' kw' = k -> get self' now' q' p' kw' = (None, self').
Proof.
  intros Hwf Hpos Hfull Habs self'. subst self'.
  destruct (evict_oldest_nonempty self) as [k [e [He [_ Hev]]]].
  { intros E. rewrite E in Hfull. unfold len in Hfull. simpl in Hfull. lia. }
  assert (k <> _make_key q p kw) as Hk by congruence.
  assert (_cache (set self now q p res kw) =
          dict_setitem (_make_key q p kw)
            {| result := res; created_at := now; hits := 0 |}
            (dict_delitem k (_cache self))) as Hset.
  { unfold set.
    destruct (Z.geb_spec (len (_cache self)) (max_size self)); [|lia].
    now rewrite Hev. }
  assert (dict_get k (_cache (set self now q p res kw)) = None) as Hgone.
  { rewrite Hset, dict_get_setitem_other by assumption.
    now apply dict_get_delitem_same. }
  split.
  - rewrite Hset, len_setitem_absent.
    + rewrite len_delitem_present by (eapply dict_get_In_keys; eassumption).
      lia.
    + rewrite dict_get_delitem_other by congruence. assumption.
  - exists k, e. repeat split; try assumption.
    intros now' q' p' kw' <-. now apply get_miss.
Qed.

(** No sequence of operations changes [max_size] or [ttl_seconds]. *)
Theorem run_keeps_config (ops : list (op Result)) : forall self,
  max_size (run self ops) = max_size self /\
  ttl_seconds (run self ops) = ttl_seconds self.
Proof.
  unfold run. induction ops as [|o ops IH]; intros self; [now split|].
  cbn [fold_left]. destruct (IH (step self o)) as [Hm Ht].
  rewrite Hm, Ht. destruct o; cbn [step].
  - split; [apply get_max_size | apply get_ttl].
  - split; [apply set_max_size | apply set_ttl].
  - now split.
Qed.

End CacheRuns.

(* ------------------------------------------------------------------ *)
(** ** Which entry is evicted, and where entries come from *)

Lemma min_from_split {A : Type} (f : A -> Z) (l : list A) :
  forall pre best mid,
    Forall (fun x => f best < f x) pre ->
    Forall (fun x => f best <= f x) mid ->
    exists pre' post',
      pre ++ best :: mid ++ l = pre' ++ min_from f best l :: post' /\
      Forall (fun x => f (min_from f best l) < f x) pre' /\
      Forall (fun x => f (min_from f best l) <= f x) post'.
Proof.
  induction l as [|x l IH]; intros pre best mid Hpre Hmid; simpl.
  - exists pre, mid. rewrite app_nil_r. auto.
  - destruct (Z.ltb_spec (f x) (f best)) as [Hlt|Hge].
    + destruct (IH (pre ++ best :: mid) x []) as [pre' [post' [E [H1 H2]]]].
      * apply Forall_app. split.
        -- eapply Forall_impl; [|exact Hpre]. simpl. intros; lia.
        -- constructor; [lia|].
           eapply Forall_impl; [|exact Hmid]. simpl. intros; lia.
      * constructor.
      * exists pre', post'. split; [|auto].
        rewrite <- E. rewrite <- app_assoc. reflexivity.
    + destruct (IH pre best (mid ++ [x])) as [pre' [post' [E [H1 H2]]]].
      * assumption.
      * apply Forall_app. split; [assumption|]. constructor; [lia|constructor].
      * exists pre', post'. split; [|auto].
        rewrite <- E. rewrite <- app_assoc. reflexivity.
Qed.

Section CacheOrder.

Context {Result : Type}.
Implicit Types (self : SearchCache Result) (e : CacheEntry Result).
Implicit Types (d : dict (CacheEntry Result)).

Lemma dict_get_In d k e : dict_get k d = Some e -> In (k, e) d.
Proof.
  induction d as [|[k0 e0] d IH]; simpl; [discriminate|].
  destruct (String.eqb_spec k k0) as [->|Hne].
  - intros [= ->]. now left.
  - intros H. right. auto.
Qed.

Lemma In_dict_get d k e : wf_dict d -> In (k, e) d -> dict_get k d = Some e.
Proof.
  unfold wf_dict. rewrite distinct_NoDup.
  induction d as [|[k0 e0] d IH]; simpl; intros Hnd; [contradiction|].
  inversion Hnd as [|? ? Hk0 Hd]; subst.
  intros [[= -> ->]|Hin].
  - now rewrite String.eqb_refl.
  - destruct (String.eqb_spec k k0) as [->|Hne]; [|auto].
    exfalso. apply Hk0. change k0 with (fst (k0, e)). now apply in_map.
Qed.

Lemma dict_delitem_middle d1 d2 k e :
  ~ In k (keys d1) ->
  dict_delitem k (d1 ++ (k, e) :: d2) = d1 ++ d2.
Proof.
  induction d1 as [|[k0 e0] d1 IH]; simpl; intros Hn.
  - now rewrite String.eqb_refl.
  - destruct (String.eqb_spec k k0) as [->|Hne]; [exfalso; auto|].
    rewrite IH; auto.
Qed.

(** [_evict_oldest] removes the first entry, in the order of the dict,
    among those whose [created_at] is smallest: the entries before it are
    strictly younger, the entries after it are not older, and all of them
    stay, in their order. *)
Theorem evict_oldest_first_minimum self :
  wf_dict (_cache self) ->
  _cache self <> [] ->
  exists before k e after,
    _cache self = before ++ (k, e) :: after /\
    Forall (fun kv => created_at e < created_at (snd kv)) before /\
    Forall (fun kv => created_at e <= created_at (snd kv)) after /\
    _cache (_evict_oldest self) = before ++ after.
Proof.
  intros Hwf Hne.
  destruct (_cache self) as [|[k0 e0] d0] eqn:Ed; [congruence|].
  assert (_cache (_evict_oldest self) =
          dict_delitem
            (min_from (created_at_of ((k0, e0) :: d0)) k0 (map fst d0))
            ((k0, e0) :: d0)) as Hev
      by (unfold _evict_oldest; rewrite Ed; reflexivity).
  rewrite Hev. clear Hev.
  set (d := (k0, e0) :: d0) in *.
  set (f := created_at_of d).
  destruct (min_from_split f (map fst d0) [] k0 [])
    as [pre [post [E [Hpre Hpost]]]]; [constructor | constructor |].
  set (k := min_from f k0 (map fst d0)) in *.
  cbn [app] in E. change (k0 :: map fst d0) with (map fst d) in E.
  apply map_eq_app in E.
  destruct E as [before [rest [Ed' [Eb Er]]]].
  destruct rest as [|[k' e] after]; [discriminate|].
  cbn [map fst] in Er. injection Er as Ek Ea. subst k'.
  assert (forall kv, In kv d -> f (fst kv) = created_at (snd kv)) as Hf.
  { intros [k1 e1] Hin. unfold f. cbn [fst snd].
    apply created_at_of_get. now apply In_dict_get. }
  assert (f k = created_at e) as Hk.
  { apply (Hf (k, e)). rewrite Ed'. apply in_or_app. right. now left. }
  exists before, k, e, after. split; [assumption|].
  split; [|split].
  - apply Forall_forall. intros kv Hin.
    rewrite <- Hk, <- Hf by (rewrite Ed'; apply in_or_app; now left).
    rewrite Forall_forall in Hpre. apply Hpre. rewrite <- Eb. now apply in_map.
  - apply Forall_forall. intros kv Hin.
    rewrite <- Hk, <- Hf
      by (rewrite Ed'; apply in_or_app; right; now right).
    rewrite Forall_forall in Hpost. apply Hpost. rewrite <- Ea.
    now apply in_map.
  - rewrite Ed'. apply dict_delitem_middle.
    unfold keys. rewrite Eb. intros Hin.
    rewrite Forall_forall in Hpre. apply Hpre in Hin. lia.
Qed.

Lemma keys_delitem_same_keys (d1 d2 : dict (CacheEntry Result)) k :
  keys d1 = keys d2 -> keys (dict_delitem k d1) = keys (dict_delitem k d2).
Proof.
  revert d2. induction d1 as [|[k1 e1] d1 IH]; intros [|[k2 e2] d2];
    simpl; try discriminate; [reflexivity|].
  intros [= -> H]. destruct (String.eqb k k2); simpl; [assumption|].
  f_equal. auto.
Qed.

Lemma created_at_of_setitem_same_time d k e e' k' :
  dict_get k d = Some e ->
  created_at e' = created_at e ->
  created_at_of (dict_setitem k e' d) k' = created_at_of d k'.
Proof.
  intros He Ht. unfold created_at_of.
  destruct (String.eqb_spec k' k) as [->|Hne].
  - now rewrite dict_get_setitem_same, He.
  - now rewrite dict_get_setitem_other.
Qed.

(** Being read does not protect an entry: after a hit, [_evict_oldest]
    removes the very key it would have removed without the hit. *)
Theorem hit_does_not_change_eviction self now q p kw e :
  dict_get (_make_key q p kw) (_cache self) = Some e ->
  now - created_at e <= ttl_seconds self ->
  keys (_cache (_evict_oldest (snd (get self now q p kw)))) =
  keys (_cache (_evict_oldest self)).
Proof.
  intros He Hfresh. unfold get. rewrite He.
  destruct (Z.gtb_spec (now - created_at e) (ttl_seconds self)); [lia|].
  cbn [snd]. unfold _evict_oldest. cbn [_cache with_cache].
  rewrite (keys_setitem_present _ _ _ _ He).
  destruct (keys (_cache self)) as [|k0 ks] eqn:Ek; [|cbn [_cache with_cache]].
  - cbn [_cache with_cache]. now apply keys_setitem_present with (v0 := e).
  - rewrite (min_from_ext _ (created_at_of (_cache self))).
    + apply keys_delitem_same_keys.
      now apply keys_setitem_present with (v0 := e).
    + intros k'. now apply created_at_of_setitem_same_time with (e := e).
Qed.

Lemma Forall_dict_delitem (P : string * CacheEntry Result -> Prop) d k :
  Forall P d -> Forall P (dict_delitem k d).
Proof.
  induction 1 as [|[k0 e0] d Hx Hd IH]; simpl; [constructor|].
  destruct (String.eqb k k0); [assumption | now constructor].
Qed.

Lemma Forall_dict_setitem (P : string * CacheEntry Result -> Prop) d k e :
  Forall P d -> P (k, e) -> Forall P (dict_setitem k e d).
Proof.
  intros Hd Hk. induction Hd as [|[k0 e0] d Hx Hd IH]; simpl.
  - now constructor.
  - destruct (String.eqb k k0); now constructor.
Qed.

Lemma stored_by_more (ops : list (op Result)) o kv :
  stored_by ops kv -> stored_by (ops ++ [o]) kv.
Proof.
  intros [now [q [p [res [kw [Hin H]]]]]].
  exists now, q, p, res, kw. split; [|assumption].
  apply in_or_app. now left.
Qed.

Lemma evict_oldest_Forall (P : string * CacheEntry Result -> Prop) self :
  Forall P (_cache self) -> Forall P (_cache (_evict_oldest self)).
Proof.
  unfold _evict_oldest. destruct (keys (_cache self)); [auto|].
  cbn [_cache with_cache]. apply Forall_dict_delitem.
Qed.

Lemma run_stored_by (m t : Z) (ops : list (op Result)) :
  Forall (stored_by ops) (_cache (run (__init__ m t) ops)).
Proof.
  induction ops as [|o ops IH] using rev_ind; [constructor|].
  rewrite run_app. cbn [run fold_left].
  set (c := run (__init__ m t) ops) in *.
  assert (Forall (stored_by (ops ++ [o])) (_cache c)) as Hc.
  { eapply Forall_impl; [|exact IH]. intros kv. apply stored_by_more. }
  destruct o as [now q p kw|now q p res kw|]; cbn [step].
  - unfold get. destruct (dict_get _ _) as [e|] eqn:He; [|assumption].
    destruct (_ >? _); cbn [snd _cache with_cache].
    + now apply Forall_dict_delitem.
    + apply Forall_dict_setitem; [assumption|].
      apply dict_get_In in He. rewrite Forall_forall in Hc.
      destruct (Hc _ He) as [n0 [q0 [p0 [r0 [kw0 [Hin [Hk [Hr [Ht Hh]]]]]]]]].
      exists n0, q0, p0, r0, kw0. cbn [fst snd result created_at hits] in *.
      repeat split; try assumption. lia.
  - unfold set. cbn [_cache with_cache].
    apply Forall_dict_setitem.
    + destruct (_ >=? _); [now apply evict_oldest_Forall | assumption].
    + exists now, q, p, res, kw. cbn [fst snd result created_at hits].
      repeat split; try lia. apply in_or_app. right. now left.
  - constructor.
Qed.

(** In a cache reached from the constructor, every entry was stored by an
    earlier [set]: its key is the fingerprint of that call, its result and
    [created_at] are the ones of that call, and its [hits] are not
    negative. *)
Theorem entries_come_from_set (m t : Z) (ops : list (op Result)) k e :
  dict_get k (_cache (run (__init__ m t) ops)) = Some e ->
  exists now q p kw,
    In (OpSet now q p (result e) kw) ops /\
    k = _make_key q p kw /\
    created_at e = now /\
    0 <= hits e.
Proof.
  intros He. apply dict_get_In in He.
  pose proof (run_stored_by m t ops) as Hall.
  rewrite Forall_forall in Hall.
  destruct (Hall _ He) as [now [q [p [res [kw [Hin [Hk [Hr [Ht Hh]]]]]]]]].
  cbn [fst snd] in *. subst res.
  exists now, q, p, kw. auto.
Qed.

End CacheOrder.

(* ------------------------------------------------------------------ *)
(** ** The key string keeps the keyword arguments *)

Section KeyString.

Lemma str_app_assoc (a b c : string) :
  ((a ++ b) ++ c)%string = (a ++ (b ++ c))%string.
Proof. induction a as [|x a IH]; simpl; [reflexivity | now rewrite IH]. Qed.
























(** A change of the query alone, or of the path alone, changes the key
    string. *)
Theorem key_string_separates_single_field query query' path path' kw :
  (query <> query' -> key_data query path kw <> key_data query' path kw) /\
  (path <> path' -> key_data query path kw <> key_data query path' kw).
Proof.
  split; intros Hne H; apply Hne.
  - now apply key_data_query_sensitive in H.
  - now apply key_data_path_sensitive in H.
Qed.

End KeyString.

(* ------------------------------------------------------------------ *)
(** ** The shape of a fingerprint *)

Section FingerprintShape.

Lemma compress_length (h block : list Z) :
  List.length h = 8%nat -> List.length (Sha256.compress h block) = 8%nat.
Proof.
  intros Hh. unfold Sha256.compress.
  rewrite length_map, length_combine, Hh. reflexivity.
Qed.

Lemma digest_words_length (msg : list Z) :
  List.length (Sha256.digest_words msg) = 8%nat.
Proof.
  unfold Sha256.digest_words.
  generalize (Sha256.blocks
                (List.length (Sha256.be_words (Sha256.pad msg)))
                (Sha256.be_words (Sha256.pad msg))).
  assert (List.length Sha256.initial_hash = 8%nat) as H0 by reflexivity.
  revert H0. generalize Sha256.initial_hash.
  intros h Hh bs. revert h Hh.
  induction bs as [|b bs IH]; intros h Hh; simpl; [assumption|].
  apply IH. now apply compress_length.
Qed.

Lemma chars_append (a b : string) :
  list_ascii_of_string (a ++ b) =
  list_ascii_of_string a ++ list_ascii_of_string b.
Proof. induction a as [|x a IH]; simpl; [reflexivity | now rewrite IH]. Qed.

Lemma hex_digit_lower_hex (x : Z) :
  is_lower_hex (Sha256.hex_digit (Z.land x 15)) = true.
Proof.
  assert (0 <= Z.land x 15 < 16) as Hb.
  { change 15 with (Z.ones 4). rewrite Z.land_ones by lia.
    apply Z.mod_pos_bound. reflexivity. }
  assert (Z.land x 15 = 0 \/ Z.land x 15 = 1 \/ Z.land x 15 = 2 \/
          Z.land x 15 = 3 \/ Z.land x 15 = 4 \/ Z.land x 15 = 5 \/
          Z.land x 15 = 6 \/ Z.land x 15 = 7 \/ Z.land x 15 = 8 \/
          Z.land x 15 = 9 \/ Z.land x 15 = 10 \/ Z.land x 15 = 11 \/
          Z.land x 15 = 12 \/ Z.land x 15 = 13 \/ Z.land x 15 = 14 \/
          Z.land x 15 = 15) as Hc by lia.
  repeat (destruct Hc as [->|Hc]; [reflexivity|]). now rewrite Hc.
Qed.

Lemma hex_of_shape (n : nat) (x : Z) :
  String.length (Sha256.hex_of n x) = n /\ all_lower_hex (Sha256.hex_of n x).
Proof.
  unfold all_lower_hex. induction n as [|n [IHl IHh]]; [now split|].
  cbn [Sha256.hex_of String.length list_ascii_of_string forallb].
  rewrite IHl, IHh, hex_digit_lower_hex. now split.
Qed.

Lemma hex_words_shape (ws : list Z) :
  let s := fold_right (fun w s => String.append (Sha256.hex_of 8 w) s)
                      EmptyString ws in
  String.length s = (8 * List.length ws)%nat /\ all_lower_hex s.
Proof.
  unfold all_lower_hex. induction ws as [|w ws [IHl IHh]]; [now split|].
  cbn [fold_right List.length].
  destruct (hex_of_shape 8 w) as [Hl Hh]. unfold all_lower_hex in Hh.
  rewrite length_append, chars_append, forallb_app, Hl, Hh, IHl, IHh.
  split; [lia | reflexivity].
Qed.

Lemma substring_prefix_shape (n : nat) : forall s,
  (n <= String.length s)%nat -> all_lower_hex s ->
  String.length (substring 0 n s) = n /\ all_lower_hex (substring 0 n s).
Proof.
  unfold all_lower_hex.
  induction n as [|n IH]; intros [|a s] Hlen Hs; simpl in *;
    try (now split); try lia.
  apply andb_true_iff in Hs. destruct Hs as [Ha Hs].
  destruct (IH s) as [Hl Hh]; [lia | assumption |].
  rewrite Hl, Ha, Hh. now split.
Qed.

(** Whatever the query, the path and the keyword arguments, the
    fingerprint is sixteen lower-case hexadecimal digits. *)
Theorem make_key_shape query path kwargs :
  String.length (_make_key query path kwargs) = 16%nat /\
  forallb is_lower_hex
    (list_ascii_of_string (_make_key query path kwargs)) = true.
Proof.
  unfold _make_key, Sha256.hexdigest.
  destruct (hex_words_shape
              (Sha256.digest_words (encode (key_data query path kwargs))))
    as [Hl Hh].
  rewrite digest_words_length in Hl.
  apply substring_prefix_shape; [rewrite Hl; simpl; lia | exact Hh].
Qed.

End FingerprintShape.

(* ------------------------------------------------------------------ *)
(** ** The routing of [read_resource] *)

Section StringSlices.

Lemma substring_whole (s : string) : substring 0 (String.length s) s = s.
Proof. induction s as [|a s IH]; simpl; [reflexivity | now rewrite IH]. Qed.

Lemma substring_0_app (a b : string) :
  substring 0 (String.length a) (a ++ b) = a.
Proof.
  induction a as [|x a IH]; simpl; [now destruct b | now rewrite IH].
Qed.

Lemma substring_skip_app (a b : string) (m : nat) :
  substring (String.length a) m (a ++ b) = substring 0 m b.
Proof. induction a as [|x a IH]; simpl; [reflexivity | assumption]. Qed.

Lemma substring_split (n : nat) : forall s,
  (n <= String.length s)%nat ->
  s = (substring 0 n s ++ substring n (String.length s - n) s)%string.
Proof.
  induction n as [|n IH]; intros s Hn.
  - rewrite Nat.sub_0_r, substring_whole. now destruct s.
  - destruct s as [|a s]; simpl in Hn; [lia|].
    cbn [substring String.length Nat.sub append]. f_equal.
    apply IH. lia.
Qed.

Lemma prefix_app (p r : string) : String.prefix p (p ++ r) = true.
Proof.
  induction p as [|a p IH]; simpl; [now destruct r|].
  destruct (ascii_dec a a); [assumption | congruence].
Qed.

Lemma prefix_slice (p : string) : forall s,
  String.prefix p s = true -> s = (p ++ slice_from (String.length p) s)%string.
Proof.
  induction p as [|a p IH]; intros s H; [reflexivity|].
  destruct s as [|b s]; simpl in H; [discriminate|].
  destruct (ascii_dec a b) as [->|]; [|discriminate].
  simpl. f_equal. now apply IH.
Qed.

Lemma slice_from_app (p r : string) : slice_from (String.length p) (p ++ r) = r.
Proof. induction p as [|a p IH]; simpl; [reflexivity | assumption]. Qed.

Lemma endswith_app (a suffix : string) : endswith (a ++ suffix) suffix = true.
Proof.
  unfold endswith. rewrite length_append.
  replace (String.length a + String.length suffix - String.length suffix)%nat
    with (String.length a) by lia.
  rewrite substring_skip_app, substring_whole, String.eqb_refl.
  apply andb_true_iff. split; [|reflexivity].
  apply Nat.leb_le. lia.
Qed.

Lemma slice_to_minus_app (a suffix : string) :
  slice_to_minus (String.length suffix) (a ++ suffix) = a.
Proof.
  unfold slice_to_minus. rewrite length_append.
  replace (String.length a + String.length suffix - String.length suffix)%nat
    with (String.length a) by lia.
  apply substring_0_app.
Qed.

Lemma endswith_slice (s suffix : string) :
  endswith s suffix = true ->
  s = (slice_to_minus (String.length suffix) s ++ suffix)%string.
Proof.
  unfold endswith, slice_to_minus. intros H.
  apply andb_true_iff in H. destruct H as [Hlen Heq].
  apply Nat.leb_le in Hlen. apply String.eqb_eq in Heq.
  rewrite (substring_split (String.length s - String.length suffix) s)
    at 1 by lia.
  f_equal.
  replace (String.length s - (String.length s - String.length suffix))%nat
    with (String.length suffix) by lia.
  assumption.
Qed.

Lemma endswith_false (s suffix : string) :
  endswith s suffix = false -> forall a, s <> (a ++ suffix)%string.
Proof. intros H a ->. rewrite endswith_app in H. discriminate. Qed.

(** Two texts that end in suffixes of the same length end in the same
    suffix only if the suffixes are equal. *)
Lemma append_same_length (a : string) : forall b s1 s2,
  String.length s1 = String.length s2 ->
  (a ++ s1)%string = (b ++ s2)%string -> a = b /\ s1 = s2.
Proof.
  induction a as [|x a IH]; intros [|y b] s1 s2 Hl H; simpl in H.
  - now split.
  - apply (f_equal String.length) in H. simpl in H.
    rewrite length_append in H. lia.
  - apply (f_equal String.length) in H. simpl in H.
    rewrite length_append in H. lia.
  - injection H as -> H. destruct (IH b s1 s2 Hl H) as [-> ->]. now split.
Qed.

End StringSlices.

Section ResourceFacts.

Context {Exc : Type}.
Variable root : outcome Exc.
Variable collection : string -> outcome Exc.
Variable document : string -> outcome Exc.

(** A URI that does not start with [knowledge://] is refused with a
    [ValueError] that quotes it, whatever the handlers would answer. *)
Theorem read_resource_other_scheme (uri : string) :
  startswith uri "knowledge://" = false ->
  read_resource root collection document uri = inr (ValueError (String.append "Invalid URI scheme: " uri)).
Proof. intros H. unfold read_resource, scheme. now rewrite H. Qed.

Lemma not_index_6 (path : string) : (path ++ "/index")%string <> "index".
Proof.
  intros H. apply (f_equal String.length) in H.
  rewrite length_append in H. simpl in H. lia.
Qed.

Lemma not_index_5 (path : string) : (path ++ "/info")%string <> "index".
Proof.
  intros H.
  destruct (append_same_length path EmptyString "/info" "index" eq_refl H)
    as [_ E].
  discriminate E.
Qed.

Lemma info_not_index_suffix (path : string) :
  endswith (path ++ "/info") "/index" = false.
Proof.
  destruct (endswith (path ++ "/info") "/index") eqn:E; [|reflexivity].
  apply endswith_slice in E. revert E.
  generalize (slice_to_minus (String.length "/index") (path ++ "/info")).
  intros a E. change "/index" with ("/" ++ "index")%string in E.
  rewrite <- str_app_assoc in E.
  destruct (append_same_length _ _ "/info" "index" eq_refl E) as [_ E'].
  discriminate E'.
Qed.

(** The URI [knowledge://<path>/index] is answered by the collection
    index of [<path>], for every path, the empty one and the ones that
    contain [/index] or [/info] themselves included; the path reaches the
    handler as it was written. *)
Theorem read_resource_collection (path : string) :
  read_resource root collection document
    (String.append "knowledge://" (String.append path "/index")) =
  collection path.
Proof.
  unfold read_resource, scheme, startswith.
  rewrite prefix_app. cbn [negb]. rewrite slice_from_app.
  destruct (String.eqb_spec (path ++ "/index") "index") as [E|_];
    [now apply not_index_6 in E|].
  rewrite endswith_app.
  change 6%nat with (String.length "/index").
  now rewrite slice_to_minus_app.
Qed.

(** The URI [knowledge://<path>/info] is answered by the document
    information of [<path>], for every path; the path reaches the handler
    as it was written. *)
Theorem read_resource_document (path : string) :
  read_resource root collection document
    (String.append "knowledge://" (String.append path "/info")) =
  document path.
Proof.
  unfold read_resource, scheme, startswith.
  rewrite prefix_app. cbn [negb]. rewrite slice_from_app.
  destruct (String.eqb_spec (path ++ "/info") "index") as [E|_];
    [now apply not_index_5 in E|].
  rewrite info_not_index_suffix, endswith_app.
  change 5%nat with (String.length "/info").
  now rewrite slice_to_minus_app.
Qed.

(** Every URI falls in exactly one of five cases, tried in this order:
    another scheme; the root index; a collection index; a document
    information; an unknown resource, refused with a [ValueError] that
    quotes the URI. *)
Theorem read_resource_cases (uri : string) :
  (startswith uri "knowledge://" = false /\
   read_resource root collection document uri = inr (ValueError (String.append "Invalid URI scheme: " uri))) \/
  exists rest,
    uri = String.append "knowledge://" rest /\
    ((rest = "index" /\ read_resource root collection document uri = root) \/
     (rest <> "index" /\
      exists path, rest = String.append path "/index" /\
                   read_resource root collection document uri = collection path) \/
     (rest <> "index" /\
      (forall path, rest <> String.append path "/index") /\
      exists path, rest = String.append path "/info" /\
                   read_resource root collection document uri = document path) \/
     (rest <> "index" /\
      (forall path, rest <> String.append path "/index") /\
      (forall path, rest <> String.append path "/info") /\
      read_resource root collection document uri =
        inr (ValueError (String.append "Unknown resource: " uri)))).
Proof.
  unfold read_resource, scheme.
  destruct (startswith uri "knowledge://") eqn:Hs; cbn [negb]; [right|now left].
  apply prefix_slice in Hs.
  set (rest := slice_from (String.length "knowledge://") uri) in *.
  exists rest. split; [exact Hs|].
  destruct (String.eqb_spec rest "index") as [E|Hne]; [now left|right].
  destruct (endswith rest "/index") eqn:E6.
  { left. split; [assumption|].
    exists (slice_to_minus 6 rest). split; [|reflexivity].
    now apply endswith_slice in E6. }
  right. pose proof (endswith_false _ _ E6) as H6.
  destruct (endswith rest "/info") eqn:E5.
  { left. split; [assumption|]. split; [assumption|].
    exists (slice_to_minus 5 rest). split; [|reflexivity].
    now apply endswith_slice in E5. }
  right. pose proof (endswith_false _ _ E5) as H5. auto.
Qed.

End ResourceFacts.

(* ------------------------------------------------------------------ *)
(** ** The capacity bound without the positive [max_size] *)

Section AnyCapacity.

Context {Result : Type}.
Implicit Types (self : SearchCache Result).

Lemma set_len_bound self now q p res kw :
  len (_cache self) <= Z.max (max_size self) 1 ->
  len (_cache (set self now q p res kw)) <= Z.max (max_size self) 1.
Proof.
  intros Hle. unfold set. cbn [_cache with_cache].
  destruct (Z.geb_spec (len (_cache self)) (max_size self)) as [Hfull|Hroom].
  - pose proof (len_setitem_le (_cache (_evict_oldest self))
                  (_make_key q p kw)
                  {| result := res; created_at := now; hits := 0 |}) as Hs.
    assert (len (_cache (_evict_oldest self)) <=
            Z.max (len (_cache self) - 1) 0) as Hev; [|lia].
    destruct (_cache self) as [|kv d] eqn:Ed.
    + rewrite (evict_oldest_empty self Ed), Ed. unfold len. simpl. lia.
    + destruct (evict_oldest_nonempty self) as [k [e [He [_ ->]]]];
        [rewrite Ed; discriminate|].
      cbn [_cache with_cache]. rewrite Ed in *.
      rewrite len_delitem_present
        by (eapply dict_get_In_keys; eassumption).
      lia.
  - pose proof (len_setitem_le (_cache self) (_make_key q p kw)
                  {| result := res; created_at := now; hits := 0 |}).
    lia.
Qed.

(** Whatever [max_size] the cache was built with, zero and negative
    values included, it never holds more than [max(max_size, 1)]
    entries. *)
Theorem capacity_bound_any_max_size (m t : Z) (ops : list (op Result)) :
  len (_cache (run (__init__ m t) ops)) <= Z.max m 1.
Proof.
  assert (forall self,
             len (_cache self) <= Z.max (max_size self) 1 ->
             len (_cache (run self ops)) <= Z.max (max_size self) 1) as H.
  { unfold run. induction ops as [|o ops IH]; intros self Hle; [assumption|].
    cbn [fold_left].
    assert (max_size (step self o) = max_size self) as Hm.
    { destruct o; cbn [step];
        [apply get_max_size | apply set_max_size | reflexivity]. }
    rewrite <- Hm. apply IH. rewrite Hm.
    destruct o; cbn [step].
    - pose proof (get_len_le self now query path kwargs). lia.
    - now apply set_len_bound.
    - unfold len. simpl. lia. }
  apply (H (__init__ m t)). unfold len. simpl. lia.
Qed.

End AnyCapacity.

(* ------------------------------------------------------------------ *)
(** ** Hits and calls *)

Section HitsAndCalls.

Context {Result : Type}.
Implicit Types (self : SearchCache Result) (e : CacheEntry Result).
Implicit Types (d : dict (CacheEntry Result)).

Lemma sum_hits_nonneg d : Forall nonneg_hits d -> 0 <= sum_hits d.
Proof.
  induction 1 as [|[k e] d Hx Hd IH]; simpl; [lia|].
  unfold nonneg_hits in Hx. simpl in Hx. lia.
Qed.

Lemma sum_hits_delitem_le d k :
  Forall nonneg_hits d -> sum_hits (dict_delitem k d) <= sum_hits d.
Proof.
  induction 1 as [|[k0 e0] d Hx Hd IH]; simpl; [lia|].
  unfold nonneg_hits in Hx. simpl in Hx.
  destruct (String.eqb k k0); simpl; lia.
Qed.

Lemma sum_hits_setitem_zero_le d k e :
  Forall nonneg_hits d -> hits e = 0 ->
  sum_hits (dict_setitem k e d) <= sum_hits d.
Proof.
  intros Hd He. induction Hd as [|[k0 e0] d Hx Hd IH]; simpl; [lia|].
  unfold nonneg_hits in Hx. simpl in Hx.
  destruct (String.eqb k k0); simpl; lia.
Qed.

Lemma count_gets_app (ops1 ops2 : list (op Result)) :
  count_gets (ops1 ++ ops2) = count_gets ops1 + count_gets ops2.
Proof.
  induction ops1 as [|o ops1 IH]; [reflexivity|].
  destruct o; cbn [app count_gets]; lia.
Qed.

Lemma run_nonneg_hits (m t : Z) (ops : list (op Result)) :
  Forall nonneg_hits (_cache (run (__init__ m t) ops)).
Proof.
  eapply Forall_impl; [|apply run_stored_by].
  intros kv [now [q [p [res [kw [_ [_ [_ [_ H]]]]]]]]]. exact H.
Qed.

(** [stats.total_hits] is never negative and never more than the number
    of [get] calls made since the cache was built. *)
Theorem total_hits_at_most_gets (m t : Z) (ops : list (op Result)) :
  0 <= total_hits (stats (run (__init__ m t) ops)) <= count_gets ops.
Proof.
  rewrite total_hits_stats. split.
  { apply sum_hits_nonneg. apply run_nonneg_hits. }
  induction ops as [|o ops IH] using rev_ind; [simpl; lia|].
  rewrite run_app, count_gets_app. cbn [run fold_left].
  pose proof (run_nonneg_hits m t ops) as Hnn.
  set (c := run (__init__ m t) ops) in *.
  destruct o as [now q p kw|now q p res kw|]; cbn [step count_gets].
  - unfold get. destruct (dict_get _ _) as [e|] eqn:He; [|cbn [snd]; lia].
    destruct (_ >? _); cbn [snd _cache with_cache].
    + pose proof (sum_hits_delitem_le (_cache c) (_make_key q p kw) Hnn). lia.
    + rewrite (sum_hits_setitem _ _ _ _ He). cbn [hits]. lia.
  - unfold set. cbn [_cache with_cache].
    set (c1 := if len (_cache c) >=? max_size c then _evict_oldest c else c).
    assert (Forall nonneg_hits (_cache c1) /\
            sum_hits (_cache c1) <= sum_hits (_cache c)) as [Hnn1 Hle1].
    { subst c1. destruct (_ >=? _); [|split; [assumption | lia]].
      split; [now apply evict_oldest_Forall|].
      unfold _evict_oldest. destruct (keys (_cache c)); [lia|].
      cbn [_cache with_cache]. now apply sum_hits_delitem_le. }
    pose proof (sum_hits_setitem_zero_le (_cache c1) (_make_key q p kw)
                  {| result := res; created_at := now; hits := 0 |}
                  Hnn1 eq_refl) as Hset.
    clearbody c1. lia.
  - pose proof (sum_hits_nonneg _ Hnn). cbn [clear _cache with_cache sum_hits].
    lia.
Qed.

End HitsAndCalls.

(* ------------------------------------------------------------------ *)
(** ** The further properties on the sample runs *)

Lemma set_then_get_fresh_witness :
  5 - 3 <= ttl_seconds full_cache /\
  fst (get (set full_cache 3 "q3" "/p" "r3" []) 5 "q3" "/p" []) = Some "r3".
Proof.
  assert (5 - 3 <= ttl_seconds full_cache) as H by (vm_compute; discriminate).
  split; [exact H|].
  exact (proj1 (set_then_get_fresh full_cache 3 5 "q3" "/p" "r3" [] H)).
Defined.

Lemma set_then_get_expired_witness :
  wf_dict (_cache full_cache) /\
  400 - 3 > ttl_seconds full_cache /\
  fst (get (set full_cache 3 "q3" "/p" "r3" []) 400 "q3" "/p" []) = None.
Proof.
  assert (wf_dict (_cache full_cache)) as Hwf by (vm_compute; reflexivity).
  assert (400 - 3 > ttl_seconds full_cache) as H by (vm_compute; reflexivity).
  split; [exact Hwf|]. split; [exact H|].
  exact (proj1 (set_then_get_expired full_cache 3 400 401 "q3" "/p" "r3" []
                  Hwf H)).
Defined.

Lemma hit_counts_once_witness :
  dict_get (_make_key "q1" "/p" []) (_cache full_cache) =
    Some {| result := "r1"; created_at := 1; hits := 0 |} /\
  5 - 1 <= ttl_seconds full_cache /\
  total_hits (stats (snd (get full_cache 5 "q1" "/p" []))) =
    total_hits (stats full_cache) + 1.
Proof.
  assert (dict_get (_make_key "q1" "/p" []) (_cache full_cache) =
          Some {| result := "r1"; created_at := 1; hits := 0 |}) as Hin
      by (vm_compute; reflexivity).
  assert (5 - 1 <= ttl_seconds full_cache) as H by (vm_compute; discriminate).
  split; [exact Hin|]. split; [exact H|].
  exact (proj1 (hit_counts_once full_cache 5 "q1" "/p" [] _ Hin H)).
Defined.

Lemma gets_after_set_count_witness :
  Forall (fun t => t - 3 <= ttl_seconds roomy_cache) [4; 5; 6] /\
  dict_get (_make_key "q2" "/p" [])
    (_cache (run (set roomy_cache 3 "q2" "/p" "r2" [])
                 (map (fun t => OpGet t "q2" "/p" []) [4; 5; 6]))) =
    Some {| result := "r2"; created_at := 3;
            hits := Z.of_nat (List.length [4; 5; 6]) |}.
Proof.
  assert (Forall (fun t => t - 3 <= ttl_seconds roomy_cache) [4; 5; 6]) as H
      by (repeat constructor; vm_compute; discriminate).
  split; [exact H|].
  exact (proj1 (gets_after_set_count roomy_cache 3 "q2" "/p" "r2" []
                  [4; 5; 6] H)).
Defined.

Lemma set_new_key_with_room_witness :
  dict_get (_make_key "q2" "/p" []) (_cache roomy_cache) = None /\
  len (_cache roomy_cache) < max_size roomy_cache /\
  _cache (set roomy_cache 2 "q2" "/p" "r2" []) =
  _cache roomy_cache ++
    [(_make_key "q2" "/p" [],
      {| result := "r2"; created_at := 2; hits := 0 |})].
Proof.
  assert (dict_get (_make_key "q2" "/p" []) (_cache roomy_cache) = None)
    as Habs by (vm_compute; reflexivity).
  assert (len (_cache roomy_cache) < max_size roomy_cache) as Hroom
      by (vm_compute; reflexivity).
  split; [exact Habs|]. split; [exact Hroom|].
  exact (set_new_key_with_room roomy_cache 2 "q2" "/p" "r2" [] Habs Hroom).
Defined.

Lemma set_new_key_when_full_witness :
  wf_dict (_cache full_cache) /\
  0 < max_size full_cache /\
  len (_cache full_cache) >= max_size full_cache /\
  dict_get (_make_key "q3" "/p" []) (_cache full_cache) = None /\
  len (_cache (set full_cache 3 "q3" "/p" "r3" [])) = len (_cache full_cache).
Proof.
  assert (wf_dict (_cache full_cache)) as Hwf by (vm_compute; reflexivity).
  assert (0 < max_size full_cache) as Hpos by (vm_compute; reflexivity).
  assert (len (_cache full_cache) >= max_size full_cache) as Hfull
      by (vm_compute; discriminate).
  assert (dict_get (_make_key "q3" "/p" []) (_cache full_cache) = None)
    as Habs by (vm_compute; reflexivity).
  split; [exact Hwf|]. split; [exact Hpos|]. split; [exact Hfull|].
  split; [exact Habs|].
  exact (proj1 (set_new_key_when_full full_cache 3 "q3" "/p" "r3" []
                  Hwf Hpos Hfull Habs)).
Defined.

Lemma evict_oldest_first_minimum_witness :
  wf_dict (_cache full_cache) /\
  _cache full_cache <> [] /\
  exists before k e after,
    _cache full_cache = before ++ (k, e) :: after /\
    _cache (_evict_oldest full_cache) = before ++ after.
Proof.
  assert (wf_dict (_cache full_cache)) as Hwf by (vm_compute; reflexivity).
  assert (_cache full_cache <> []) as Hne by (vm_compute; discriminate).
  split; [exact Hwf|]. split; [exact Hne|].
  destruct (evict_oldest_first_minimum full_cache Hwf Hne)
    as [before [k [e [after [Hd [_ [_ Hev]]]]]]].
  exists before, k, e, after. split; [exact Hd | exact Hev].
Defined.

Lemma hit_does_not_change_eviction_witness :
  dict_get (_make_key "q1" "/p" []) (_cache full_cache) =
    Some {| result := "r1"; created_at := 1; hits := 0 |} /\
  5 - 1 <= ttl_seconds full_cache /\
  keys (_cache (_evict_oldest (snd (get full_cache 5 "q1" "/p" [])))) =
  keys (_cache (_evict_oldest full_cache)).
Proof.
  assert (dict_get (_make_key "q1" "/p" []) (_cache full_cache) =
          Some {| result := "r1"; created_at := 1; hits := 0 |}) as Hin
      by (vm_compute; reflexivity).
  assert (5 - 1 <= ttl_seconds full_cache) as H by (vm_compute; discriminate).
  split; [exact Hin|]. split; [exact H|].
  exact (hit_does_not_change_eviction full_cache 5 "q1" "/p" [] _ Hin H).
Defined.

Lemma entries_come_from_set_witness :
  dict_get (_make_key "q1" "/p" []) (_cache (run (__init__ 2 300) session)) =
    Some {| result := "r1"; created_at := 1; hits := 1 |} /\
  exists now q p kw,
    In (OpSet now q p "r1" kw) session /\
    _make_key "q1" "/p" [] = _make_key q p kw /\
    1 = now /\ 0 <= 1.
Proof.
  assert (dict_get (_make_key "q1" "/p" [])
            (_cache (run (__init__ 2 300) session)) =
          Some {| result := "r1"; created_at := 1; hits := 1 |}) as Hin
      by (vm_compute; reflexivity).
  split; [exact Hin|].
  exact (entries_come_from_set 2 300 session _ _ Hin).
Defined.


Lemma key_string_separates_single_field_witness :
  "cat" <> "dog" /\
  key_data "cat" "/docs" [kw_fuzzy] <> key_data "dog" "/docs" [kw_fuzzy] /\
  key_data "/docs" "cat" [kw_fuzzy] <> key_data "/docs" "dog" [kw_fuzzy].
Proof.
  assert ("cat" <> "dog") as H by discriminate.
  split; [exact H|]. split.
  - exact (proj1 (key_string_separates_single_field
                    "cat" "dog" "/docs" "/docs" [kw_fuzzy]) H).
  - exact (proj2 (key_string_separates_single_field
                    "/docs" "/docs" "cat" "dog" [kw_fuzzy]) H).
Defined.

Lemma read_resource_other_scheme_witness :
  startswith "file://notes/index" "knowledge://" = false /\
  read_resource (inl "root") (fun p => inl p) (fun p => inl p)
                "file://notes/index" =
  inr (ValueError (Exc := Empty_set)
         (String.append "Invalid URI scheme: " "file://notes/index")).
Proof.
  split; [reflexivity|].
  apply read_resource_other_scheme. reflexivity.
Defined.
